(** * Bella / tdparse: corpus parsers and tokeniser wrappers

    A shallow embedding of [tdparse/parsers.py] and [bella/tokenisers.py].

    Python [str] values are modelled as lists of characters over the
    Latin-1 range of code points (Rocq's [ascii], read as code points
    0..255).  Within that range [str.lower], [str.isspace],
    [str.isprintable] and the [\w] class of the [re] module are given by the
    tables below, and [str.lower] maps character to character.  Outside
    that range [str.lower] can lengthen a string, so wherever the code takes
    positions from a lower-cased text the properties below speak of the
    lower-cased text, not of the text it came from. *)

From Stdlib Require Import String Ascii DecimalString DecimalNat DecimalZ.
From Stdlib Require Import ZArith Lia Bool Arith List Sorted.
Import ListNotations.

Set Implicit Arguments.
Set Warnings "-register-all".

(** ** Strings *)

Definition str := list ascii.

(** String literals are written [$"..."]. *)
Notation "$ s" := (String.list_ascii_of_string s%string) (at level 1, format "$ s").

Definition in_range (lo hi : nat) (c : ascii) : bool :=
  let n := nat_of_ascii c in (lo <=? n) && (n <=? hi).

(** [str.isspace] on one character. *)
Definition isspace (c : ascii) : bool :=
  in_range 9 13 c || in_range 28 32 c
  || (nat_of_ascii c =? 133) || (nat_of_ascii c =? 160).

(** [str.lower] on one character: A-Z and the Latin-1 capitals. *)
Definition is_upper (c : ascii) : bool :=
  in_range 65 90 c || in_range 192 214 c || in_range 216 222 c.

Definition lower_char (c : ascii) : ascii :=
  if is_upper c then ascii_of_nat (nat_of_ascii c + 32) else c.

Definition lower (s : str) : str := map lower_char s.

(** The [\w] class of [re] on [str] patterns. *)
Definition is_word (c : ascii) : bool :=
  let n := nat_of_ascii c in
  in_range 48 57 c || in_range 65 90 c || (n =? 95) || in_range 97 122 c
  || (n =? 170) || (n =? 178) || (n =? 179) || (n =? 181) || (n =? 185)
  || (n =? 186) || in_range 188 190 c || in_range 192 214 c
  || in_range 216 246 c || in_range 248 255 c.

Definition is_digit (c : ascii) : bool := in_range 48 57 c.

Fixpoint dropwhile (p : ascii -> bool) (s : str) : str :=
  match s with
  | [] => []
  | c :: r => if p c then dropwhile p r else s
  end.

Definition mem (c : ascii) (chars : str) : bool :=
  existsb (Ascii.eqb c) chars.

(** [s.lstrip(chars)], [s.rstrip(chars)]: [chars] is a set of characters,
    every leading (trailing) character in the set is removed. *)
Definition lstrip_chars (chars s : str) : str :=
  dropwhile (fun c => mem c chars) s.

Definition rstrip_chars (chars s : str) : str :=
  rev (dropwhile (fun c => mem c chars) (rev s)).

(** [s.strip()] *)
Definition strip (s : str) : str :=
  rev (dropwhile isspace (rev (dropwhile isspace s))).

(** [s.split()]: [cur] is the word being read, reversed. *)
Fixpoint split_from (cur s : str) : list str :=
  match s with
  | [] => match cur with [] => [] | _ => [rev cur] end
  | c :: r =>
      if isspace c
      then match cur with
           | [] => split_from [] r
           | _ => rev cur :: split_from [] r
           end
      else split_from (c :: cur) r
  end.

Definition split (s : str) : list str := split_from [] s.

(** [''.join(words)] *)
Definition join (words : list str) : str := concat words.

(** [s.startswith(t)] *)
Fixpoint prefixb (t s : str) : bool :=
  match t, s with
  | [], _ => true
  | a :: t', c :: s' => Ascii.eqb a c && prefixb t' s'
  | _ :: _, [] => false
  end.

(** [s.replace(old, '')]: the occurrences of [old] met from left to right
    are dropped; [skip] characters still belong to the occurrence just met. *)
Fixpoint remove_from (old : str) (skip : nat) (s : str) : str :=
  match s with
  | [] => []
  | c :: r =>
      match skip with
      | S k => remove_from old k r
      | O => if prefixb old s
             then remove_from old (length old - 1) r
             else c :: remove_from old 0 r
      end
  end.

Definition remove (old s : str) : str :=
  match old with
  | [] => s
  | _ => remove_from old 0 s
  end.

(** [s[a:b]] with Python's treatment of negative and out-of-range bounds. *)
Definition clip (len i : Z) : Z :=
  if (i <? 0)%Z then Z.max (i + len) 0 else Z.min i len.

Definition slice (s : str) (a b : Z) : str :=
  let len := Z.of_nat (length s) in
  let a' := clip len a in
  let b' := clip len b in
  firstn (Z.to_nat (b' - a')) (skipn (Z.to_nat a') s).

(** [str(n)] for a non-negative and for an arbitrary integer. *)
Definition str_of_nat (n : nat) : str :=
  String.list_ascii_of_string
    (DecimalString.NilEmpty.string_of_uint (Nat.to_uint n)).

Definition str_of_Z (z : Z) : str :=
  String.list_ascii_of_string
    (DecimalString.NilZero.string_of_int (Z.to_int z)).

(** [int(s)] on a string without surrounding whitespace: an optional sign,
    then decimal digits, single underscores allowed between digits. *)
Definition digit_val (c : ascii) : Z := Z.of_nat (nat_of_ascii c - 48).

Fixpoint int_digits (acc : Z) (after_digit : bool) (s : str) : option Z :=
  match s with
  | [] => if after_digit then Some acc else None
  | c :: r =>
      if is_digit c then int_digits (10 * acc + digit_val c)%Z true r
      else if Ascii.eqb c "_" && after_digit
           then match r with
                | d :: _ => if is_digit d then int_digits acc false r else None
                | [] => None
                end
           else None
  end.

Definition py_int (s : str) : option Z :=
  match s with
  | c :: r =>
      if Ascii.eqb c "-" then option_map Z.opp (int_digits 0 false r)
      else if Ascii.eqb c "+" then int_digits 0 false r
      else int_digits 0 false s
  | [] => None
  end.

(** [repr(s)]: the quote is the apostrophe unless [s] holds an apostrophe
    and no double quote; the quote and the backslash are escaped, tab,
    newline and carriage return are written [\t], [\n], [\r], and any other
    character that [str.isprintable] refuses is written [\xhh]. *)
Definition apostrophe : ascii := ascii_of_nat 39.
Definition double_quote : ascii := ascii_of_nat 34.
Definition backslash : ascii := ascii_of_nat 92.

Definition isprintable (c : ascii) : bool :=
  in_range 32 126 c
  || (in_range 161 255 c && negb (nat_of_ascii c =? 173)).

Definition hex_digit (n : nat) : ascii := nth n $"0123456789abcdef" "0"%char.

Definition repr_char (quote c : ascii) : str :=
  let n := nat_of_ascii c in
  if Ascii.eqb c quote || Ascii.eqb c backslash then [backslash; c]
  else if n =? 9 then $"\t"
  else if n =? 10 then $"\n"
  else if n =? 13 then $"\r"
  else if isprintable c then [c]
  else $"\x" ++ [hex_digit (n / 16); hex_digit (n mod 16)].

Definition repr (s : str) : str :=
  let quote :=
    if mem apostrophe s && negb (mem double_quote s) then double_quote
    else apostrophe in
  quote :: concat (map (repr_char quote) s) ++ [quote].

Fixpoint str_eqb (a b : str) : bool :=
  match a, b with
  | [], [] => true
  | x :: a', y :: b' => Ascii.eqb x y && str_eqb a' b'
  | _, _ => false
  end.

(** ** Values, exceptions, outcomes *)

Inductive pyval :=
| PNone
| PBool (b : bool)
| PInt (z : Z)
| PStr (s : str)
| PBytes (b : list ascii).

Inductive exn :=
| FileNotFoundError (msg : str)
| ValueError (msg : str)
| KeyError (key : str)
| TypeError (msg : str)
| IndexError (msg : str)
| UnboundLocalError (name : str)
| ReError
| Exception (msg : str).

(** The [ValueError] of [int(line)] for a [line] that [int] does not accept:
    the message ends in the first 200 characters of [repr(line)]. *)
Definition int_error (line : str) : exn :=
  ValueError ($"invalid literal for int() with base 10: "
              ++ firstn 200 (repr line)).

(** A call returns, raises, or uses a regular-expression construct that lies
    [Beyond] the fragment of the [re] module modelled below. *)
Inductive outcome (A : Type) :=
| Ok (a : A)
| Raise (e : exn)
| Beyond.

Arguments Ok {A} a.
Arguments Raise {A} e.
Arguments Beyond {A}.

Definition bind {A B} (m : outcome A) (k : A -> outcome B) : outcome B :=
  match m with
  | Ok a => k a
  | Raise e => Raise e
  | Beyond => Beyond
  end.

Notation "x <- m ;; k" := (bind m (fun x => k))
  (at level 61, m at next level, right associativity).

Definition is_ok {A} (m : outcome A) : bool :=
  match m with Ok _ => true | _ => false end.

Definition is_raise {A} (m : outcome A) : bool :=
  match m with Raise _ => true | _ => false end.

Definition is_type_error {A} (m : outcome A) : bool :=
  match m with Raise (TypeError _) => true | _ => false end.

(** ** The fragment of [re] the parsers exercise *)

Module Re.

Inductive atom :=
| Lit (c : ascii)
| AnyChar
| NonWord.

(** [Compiled p]: a pattern of literal characters, [.] and [[^\w]];
    [BadPattern]: a pattern that [re] rejects with [re.error];
    [Unmodelled]: any other pattern, whether [re] compiles it, rejects it or
    fails on it in another way (a repetition count beyond its limit is an
    [OverflowError]).  Nothing is stated about a search with an
    [Unmodelled] pattern. *)
Inductive compiled :=
| Compiled (p : list atom)
| BadPattern
| Unmodelled.

Definition special (c : ascii) : bool := mem c $".^$*+?{}[]\|()".

Definition starts_class (s : str) : bool := prefixb $"[^\w]" s.

Fixpoint parse (s : str) : option (list atom) :=
  match s with
  | [] => Some []
  | c :: r =>
      if starts_class s then
        match r with
        | _ :: _ :: _ :: _ :: r' => option_map (cons NonWord) (parse r')
        | _ => None
        end
      else if Ascii.eqb c "." then option_map (cons AnyChar) (parse r)
      else if special c then None
      else option_map (cons (Lit c)) (parse r)
  end.

(** A pattern that opens with a repetition operator is rejected by
    [re.compile] ("nothing to repeat"). *)
Definition compile (pattern : str) : compiled :=
  match pattern with
  | c :: _ =>
      if mem c $"*+?" then BadPattern
      else match parse pattern with
           | Some p => Compiled p
           | None => Unmodelled
           end
  | [] => Compiled []
  end.

Definition atom_match (a : atom) (c : ascii) : bool :=
  match a with
  | Lit x => Ascii.eqb x c
  | AnyChar => negb (nat_of_ascii c =? 10)
  | NonWord => negb (is_word c)
  end.

Fixpoint match_here (p : list atom) (s : str) : bool :=
  match p, s with
  | [], _ => true
  | a :: p', c :: s' => atom_match a c && match_here p' s'
  | _ :: _, [] => false
  end.

(** Left-to-right scan for non-overlapping matches; [skip] characters are
    still covered by the previous match.  The empty pattern matches at
    every position, the end of the text included. *)
Fixpoint scan (p : list atom) (skip pos : nat) (s : str)
  : list (nat * nat) :=
  match s with
  | [] =>
      match skip, p with
      | O, [] => [(pos, pos)]
      | _, _ => []
      end
  | _ :: r =>
      match skip with
      | S k => scan p k (S pos) r
      | O =>
          if match_here p s
          then (pos, pos + length p) :: scan p (length p - 1) (S pos) r
          else scan p 0 (S pos) r
      end
  end.

(** [[m.span() for m in re.finditer(pattern, text)]] *)
Definition finditer (pattern text : str) : outcome (list (nat * nat)) :=
  match compile pattern with
  | Compiled p => Ok (scan p 0 0 text)
  | BadPattern => Raise ReError
  | Unmodelled => Beyond
  end.

End Re.

(** ** Data types

    [tdparse/data_types.py] is not among the sources at hand; [Target] and
    [TargetCollection] follow the data model of the specification. *)

(** Modelled from the spec: [Target], one annotated sentiment span, built
    from keyword arguments.  The fields hold whatever the parser passes:
    offsets are integers in [dong] and [election] and attribute strings in
    [semeval]; a sentiment is an integer or a raw label. *)
Record Target := mkTarget {
  text : pyval;
  target : str;
  spans : list (pyval * pyval);
  sentiment : pyval;
  target_id : str;
  sentence_id : option str
}.

(** Modelled from the spec: [TargetCollection], an ordered mapping from
    [target_id] to [Target] that keeps insertion order and whose ids are
    unique, so that its length is the number of [add] calls: adding an id
    that is already present is refused. *)
Definition TargetCollection := list Target.

Definition has_id (c : TargetCollection) (id : str) : bool :=
  existsb (fun t => str_eqb (target_id t) id) c.

(** Modelled from the spec: [TargetCollection.add], which keeps the ids
    unique and the order of insertion. *)
Definition add (c : TargetCollection) (t : Target) : outcome TargetCollection :=
  if has_id c (target_id t) then Raise (KeyError (target_id t))
  else Ok (c ++ [t]).

(** Modelled from the spec: [TargetCollection(targets)], the collection
    built from a sequence of Targets. *)
Fixpoint collect (c : TargetCollection) (ts : list Target)
  : outcome TargetCollection :=
  match ts with
  | [] => Ok c
  | t :: r => c' <- add c t ;; collect c' r
  end.

Definition int_span (m : nat * nat) : pyval * pyval :=
  (PInt (Z.of_nat (fst m)), PInt (Z.of_nat (snd m))).


(** ** [dong]: the three-line record format *)

Definition filesystem := str -> option (list str).

Record sent_dict := mkSent {
  sd_text : option str;
  sd_target : option str
}.

Definition item {A} (key : str) (v : option A) : outcome A :=
  match v with
  | Some a => Ok a
  | None => Raise (KeyError key)
  end.

Definition sentiment_range : list Z := [-1; 0; 1]%Z.

(** Lines 50-56: the spans of the target in the text. *)
Definition dong_offsets (sd_text sd_target : str)
  : outcome (list (nat * nat)) :=
  let text := lower sd_text in
  let target := lower sd_target in
  offsets <- Re.finditer target text ;;
  if 1 <? length (split target) then
    let joined_target := join (split target) in
    more <- Re.finditer joined_target text ;;
    Ok (offsets ++ more)
  else Ok offsets.

Definition dong_line (index : nat) (line : str)
  (st : sent_dict * TargetCollection) : outcome (sent_dict * TargetCollection) :=
  let (sent, sentiment_data) := st in
  let divisible := index + 1 in
  let line := strip line in
  if divisible mod 3 =? 1 then
    Ok (mkSent (Some line) (sd_target sent), sentiment_data)
  else if divisible mod 3 =? 2 then
    Ok (mkSent (sd_text sent) (Some line), sentiment_data)
  else if divisible mod 3 =? 0 then
    match py_int line with
    | None => Raise (int_error line)
    | Some sentiment =>
        if negb (existsb (Z.eqb sentiment) sentiment_range) then
          Raise (ValueError ($"The sentiment has to be one of the following values [-1, 0, 1] not "
                             ++ str_of_Z sentiment))
        else
          txt <- item $"text" (sd_text sent) ;;
          tgt <- item $"target" (sd_target sent) ;;
          offsets <- dong_offsets txt tgt ;;
          let sent_target :=
            mkTarget (PStr txt) tgt (map int_span offsets) (PInt sentiment)
                     (str_of_nat (length sentiment_data)) None in
          sentiment_data' <- add sentiment_data sent_target ;;
          Ok (mkSent None None, sentiment_data')
    end
  else Raise (Exception $"Problem").

Fixpoint dong_loop (index : nat) (lines : list str)
  (st : sent_dict * TargetCollection) : outcome TargetCollection :=
  match lines with
  | [] => Ok (snd st)
  | line :: rest =>
      st' <- dong_line index line st ;;
      dong_loop (S index) rest st'
  end.

Definition dong_lines (lines : list str) : outcome TargetCollection :=
  dong_loop 0 lines (mkSent None None, []).

(** [file_path] is the path from line 27 on, that is the absolute path that
    [os.path.abspath] returned, and [fs] gives the lines of the regular
    files by absolute path: the message of line 29 names that path. *)
Definition dong (fs : filesystem) (file_path : str)
  : outcome TargetCollection :=
  match fs file_path with
  | None => Raise (FileNotFoundError ($"This file does not exist " ++ file_path))
  | Some lines => dong_lines lines
  end.

(** ** [semeval]: the XML sentence format *)

(** An [xml.etree.ElementTree] element: tag, attributes, text, children. *)
Inductive Element :=
| Elem (tag : str) (attrib : list (str * str)) (etext : option str)
       (children : list Element).

Definition tag_of (e : Element) : str := let (t, _, _, _) := e in t.
Definition attrib_of (e : Element) : list (str * str) :=
  let (_, a, _, _) := e in a.
Definition text_of (e : Element) : option str := let (_, _, x, _) := e in x.
Definition children_of (e : Element) : list Element :=
  let (_, _, _, c) := e in c.

(** [d[key]] on a dictionary kept as an association list. *)
Fixpoint get {V} (d : list (str * V)) (key : str) : outcome V :=
  match d with
  | [] => Raise (KeyError key)
  | (k, v) :: r => if str_eqb k key then Ok v else get r key
  end.

(** [d[key] = v] *)
Fixpoint set {V} (d : list (str * V)) (key : str) (v : V) : list (str * V) :=
  match d with
  | [] => [(key, v)]
  | (k, w) :: r => if str_eqb k key then (k, v) :: r else (k, w) :: set r key v
  end.

Definition sentiment_mapper : list (str * Z) :=
  [($"conflict", -2); ($"negative", -1); ($"neutral", 0); ($"positive", 1)]%Z.

Record aspect_dict := mkAspect {
  a_target_id : str;
  a_target : str;
  a_sentiment : Z;
  a_spans : list (pyval * pyval);
  a_text : option pyval
}.

Fixpoint extract_from (index : nat) (aspect_terms : list Element)
  (sentence_id : str) : outcome (list aspect_dict) :=
  match aspect_terms with
  | [] => Ok []
  | aspect_term :: rest =>
      let aspect_term := attrib_of aspect_term in
      polarity <- get aspect_term $"polarity" ;;
      sentiment <- get sentiment_mapper polarity ;;
      let aspect_id := sentence_id ++ str_of_nat index in
      term <- get aspect_term $"term" ;;
      from <- get aspect_term $"from" ;;
      to <- get aspect_term $"to" ;;
      let aspect_term_data :=
        mkAspect aspect_id term sentiment [(PStr from, PStr to)] None in
      more <- extract_from (S index) rest sentence_id ;;
      Ok (aspect_term_data :: more)
  end.

Definition extract_aspect_terms (aspect_terms : Element) (sentence_id : str)
  : outcome (list aspect_dict) :=
  extract_from 0 (children_of aspect_terms) sentence_id.

Definition add_text (aspect_data : list aspect_dict) (text : pyval)
  : list aspect_dict :=
  map (fun data => mkAspect (a_target_id data) (a_target data)
                            (a_sentiment data) (a_spans data) (Some text))
      aspect_data.

(** [Target] applied to the keyword dictionary [aspect]. *)
Definition target_of_aspect (a : aspect_dict) : outcome Target :=
  match a_text a with
  | Some txt =>
      Ok (mkTarget txt (a_target a) (a_spans a) (PInt (a_sentiment a))
                   (a_target_id a) None)
  | None => Raise (TypeError $"__init__() missing 1 required argument: 'text'")
  end.

(** The inner loop over the children of one sentence: the index of the last
    [text] child and the data of the last [aspectTerms] child. *)
Fixpoint scan_sentence (index : nat) (children : list Element)
  (sentence_id : str) (st : option (list aspect_dict) * option nat)
  : outcome (option (list aspect_dict) * option nat) :=
  match children with
  | [] => Ok st
  | data :: rest =>
      let (aspect_term_data, text_index) := st in
      if str_eqb (tag_of data) $"text" then
        scan_sentence (S index) rest sentence_id (aspect_term_data, Some index)
      else if str_eqb (tag_of data) $"aspectTerms" then
        terms <- extract_aspect_terms data sentence_id ;;
        scan_sentence (S index) rest sentence_id (Some terms, text_index)
      else scan_sentence (S index) rest sentence_id st
  end.

Definition pytext (t : option str) : pyval :=
  match t with
  | Some s => PStr s
  | None => PNone
  end.

Fixpoint add_aspects (c : TargetCollection) (aspects : list aspect_dict)
  : outcome TargetCollection :=
  match aspects with
  | [] => Ok c
  | aspect :: rest =>
      sent_target <- target_of_aspect aspect ;;
      c' <- add c sent_target ;;
      add_aspects c' rest
  end.

Definition semeval_sentence (file_path : str) (sentence : Element)
  (all_aspect_term_data : TargetCollection) : outcome TargetCollection :=
  sentence_id <- get (attrib_of sentence) $"id" ;;
  st <- scan_sentence 0 (children_of sentence) sentence_id (None, None) ;;
  match st with
  | (None, _) => Ok all_aspect_term_data
  | (Some _, None) =>
      Raise (ValueError ($"A semeval sentence should always have text semeval file "
                         ++ file_path ++ $" sentence id " ++ sentence_id))
  | (Some aspect_term_data, Some text_index) =>
      match nth_error (children_of sentence) text_index with
      | None => Raise (IndexError $"child index out of range")
      | Some text_elem =>
          let sentence_text := pytext (text_of text_elem) in
          add_aspects all_aspect_term_data
                      (add_text aspect_term_data sentence_text)
      end
  end.

Fixpoint semeval_sentences (file_path : str) (sentences : list Element)
  (c : TargetCollection) : outcome TargetCollection :=
  match sentences with
  | [] => Ok c
  | sentence :: rest =>
      c' <- semeval_sentence file_path sentence c ;;
      semeval_sentences file_path rest c'
  end.

(** [tree] is the root element that [ET.parse(file_path).getroot()] yields. *)
Definition semeval (file_path : str) (tree : Element)
  : outcome TargetCollection :=
  let sentences := tree in
  if negb (str_eqb (tag_of sentences) $"sentences") then
    Raise (ValueError ($"The root of all semeval xml files should be sentences and not "
                       ++ tag_of sentences))
  else semeval_sentences file_path (children_of sentences) [].

(** ** [election]: the multi-file JSON format *)

Module Election.

Record entity := mkEntity {
  e_entity : str;
  e_id : Z;
  e_offset : Z
}.

Record tweet := mkTweet {
  content : str;
  entities : list entity
}.

(** [additional_items] is a JSON object in some records and something
    else in others. *)
Inductive additional :=
| AsDict (pairs : list (str * pyval))
| NotDict.

Record annotation := mkAnno {
  items : list (str * pyval);
  additional_items : additional
}.

(** Line 172: the key under which the data of [file_name] is stored. *)
Definition tweet_id_of (file_name : str) : str :=
  lstrip_chars $"5" (rstrip_chars $".json" file_name).

(** [folder] lists the directory: file names with their parsed JSON. *)
Fixpoint get_file_data {J} (folder : list (str * J)) (data : list (str * J))
  : list (str * J) :=
  match folder with
  | [] => data
  | (file_name, json) :: rest =>
      let tweet_id := tweet_id_of file_name in
      get_file_data rest (set data tweet_id json)
  end.

Definition offset_shifts : list Z := [0; -1; 1]%Z.

Fixpoint shifted (shifts : list Z) (from_offset : Z) (tweet_text target : str)
  : option (list (Z * Z)) :=
  match shifts with
  | [] => None
  | offset_shift :: rest =>
      let from_offset_shift := (from_offset + offset_shift)%Z in
      let to_offset := (from_offset_shift + Z.of_nat (length target))%Z in
      let offsets := [(from_offset_shift, to_offset)] in
      let offset_text := lower (slice tweet_text from_offset_shift to_offset) in
      if str_eqb offset_text (lower target) then Some offsets
      else shifted rest from_offset tweet_text target
  end.

Definition newline : str := [ascii_of_nat 10].

Definition offset_error (tweet_id : str) (from_offset : Z)
  (tweet_text target : str) : exn :=
  ValueError ($"Offset " ++ str_of_Z from_offset
              ++ $" does not match target text " ++ target
              ++ $". Full text " ++ tweet_text ++ newline
              ++ $"id " ++ tweet_id).

Definition get_offsets (tweet_id : str) (entity : entity)
  (tweet_text target : str) : outcome (list (Z * Z)) :=
  let from_offset := e_offset entity in
  match shifted offset_shifts from_offset tweet_text target with
  | Some offsets => Ok offsets
  | None => Raise (offset_error tweet_id from_offset tweet_text target)
  end.

Definition target_searches (target : str) : list str :=
  let low_target := lower target in
  [low_target; $"[^\w]" ++ low_target;
   $"[^\w]" ++ low_target ++ $"[^\w]";
   low_target ++ $"[^\w]";
   remove $" " low_target;
   remove $" '" low_target].

(** The loop of lines 200-204; [None] when it runs to its end. *)
Fixpoint single_match (searches : list str) (low_text : str)
  : outcome (option (list (nat * nat))) :=
  match searches with
  | [] => Ok None
  | target_search :: rest =>
      target_matches <- Re.finditer target_search low_text ;;
      if length target_matches =? 1 then Ok (Some target_matches)
      else single_match rest low_text
  end.

Definition skipped_tweets : list str :=
  [$"81211671026352128"; $"78689580104290305"; $"81209490499960832"].


Definition fuzzy_error (target tweet_text : str) : exn :=
  ValueError ($"Cannot find the exact additional entity " ++ target
              ++ $" within the tweet " ++ tweet_text).

Definition fuzzy_target_match (tweet_id tweet_text target : str)
  : outcome (option (list (nat * nat))) :=
  found <- single_match (target_searches target) (lower tweet_text) ;;
  match found with
  | Some target_matches => Ok (Some target_matches)
  | None =>
      if existsb (str_eqb tweet_id) skipped_tweets then Ok None
      else if str_eqb tweet_id $"75270720671973376"
              && str_eqb target $"kippers" then Ok None
      else if str_eqb tweet_id $"65855178264686592"
              && str_eqb target $"tax" then Ok None
      else Raise (fuzzy_error target tweet_text)
  end.

(** The locals of [parse_tweet] that its two loops update.  [data_dict] is
    bound by the first pass of the entity loop; every key the second loop
    reads from it is one that loop writes first, so only whether the name
    is bound is kept. *)
Record locals := mkLocals {
  target_instances : list Target;
  target_ids : list Z;
  data_dict_bound : bool
}.

Definition int_pair (o : Z * Z) : pyval * pyval :=
  (PInt (fst o), PInt (snd o)).

Fixpoint py_max (l : list Z) : outcome Z :=
  match l with
  | [] => Raise (ValueError $"max() arg is an empty sequence")
  | [x] => Ok x
  | x :: r => m <- py_max r ;; Ok (Z.max x m)
  end.

Definition pyval_eqb_str (v : pyval) (s : str) : bool :=
  match v with
  | PStr x => str_eqb x s
  | _ => false
  end.

Definition entity_step (include_dnr : bool) (anno_data : annotation)
  (tweet_id tweet_text : str) (entity : entity) (l : locals)
  : outcome locals :=
  let target := e_entity entity in
  let ids := target_ids l ++ [e_id entity] in
  let entity_id := str_of_Z (e_id entity) in
  offsets <- get_offsets tweet_id entity tweet_text target ;;
  sentiment <- get (items anno_data) entity_id ;;
  if pyval_eqb_str sentiment $"doesnotapply" && negb include_dnr then
    Ok (mkLocals (target_instances l) ids true)
  else
    let t := mkTarget (PStr tweet_text) (e_entity entity)
                      (map int_pair offsets) sentiment
                      (tweet_id ++ $"#" ++ entity_id) (Some tweet_id) in
    Ok (mkLocals (target_instances l ++ [t]) ids true).

Fixpoint entity_loop (include_dnr : bool) (anno_data : annotation)
  (tweet_id tweet_text : str) (ents : list entity) (l : locals)
  : outcome locals :=
  match ents with
  | [] => Ok l
  | entity :: rest =>
      l' <- entity_step include_dnr anno_data tweet_id tweet_text entity l ;;
      entity_loop include_dnr anno_data tweet_id tweet_text rest l'
  end.

Definition additional_step (tweet_id tweet_text : str)
  (kv : str * pyval) (l : locals) : outcome locals :=
  let (target, sentiment) := kv in
  target_matches <- fuzzy_target_match tweet_id tweet_text target ;;
  match target_matches with
  | None => Ok l
  | Some target_matches =>
      top <- py_max (target_ids l) ;;
      let target_id := (top + 1)%Z in
      let ids := target_ids l ++ [target_id] in
      if negb (data_dict_bound l) then Raise (UnboundLocalError $"data_dict")
      else
        match target_matches with
        | [] => Raise (IndexError $"list index out of range")
        | m :: _ =>
            let t := mkTarget (PStr tweet_text) target [int_span m] sentiment
                              (tweet_id ++ $"#" ++ str_of_Z target_id)
                              (Some tweet_id) in
            Ok (mkLocals (target_instances l ++ [t]) ids true)
        end
  end.

Fixpoint additional_loop (tweet_id tweet_text : str)
  (pairs : list (str * pyval)) (l : locals) : outcome locals :=
  match pairs with
  | [] => Ok l
  | kv :: rest =>
      l' <- additional_step tweet_id tweet_text kv l ;;
      additional_loop tweet_id tweet_text rest l'
  end.

Definition parse_tweet (include_dnr include_additional : bool)
  (tweet_data : tweet) (anno_data : annotation) (tweet_id : str)
  : outcome (list Target) :=
  let tweet_text := content tweet_data in
  l <- entity_loop include_dnr anno_data tweet_id tweet_text
                   (entities tweet_data) (mkLocals [] [] false) ;;
  if include_additional then
    match additional_items anno_data with
    | AsDict pairs =>
        l' <- additional_loop tweet_id tweet_text pairs l ;;
        Ok (target_instances l')
    | NotDict => Ok (target_instances l)
    end
  else Ok (target_instances l).

Fixpoint get_targets (include_dnr include_additional : bool)
  (id_data : list str) (tweets_data : list (str * tweet))
  (annos_data : list (str * annotation)) : outcome (list Target) :=
  match id_data with
  | [] => Ok []
  | tweet_id :: rest =>
      let tweet_id := strip tweet_id in
      tweet_data <- get tweets_data tweet_id ;;
      anno_data <- get annos_data tweet_id ;;
      ts <- parse_tweet include_dnr include_additional
                        tweet_data anno_data tweet_id ;;
      more <- get_targets include_dnr include_additional rest
                          tweets_data annos_data ;;
      Ok (ts ++ more)
  end.

Definition get_data (include_dnr include_additional : bool)
  (id_file : list str) (tweets_data : list (str * tweet))
  (annos_data : list (str * annotation)) : outcome TargetCollection :=
  targets <- get_targets include_dnr include_additional id_file
                         tweets_data annos_data ;;
  collect [] targets.

(** The folder: the listings of [tweets/] and [annotations/] and the
    lines of [train_id.txt] and [test_id.txt]. *)
Record folder := mkFolder {
  tweets : list (str * tweet);
  annotations : list (str * annotation);
  train_id : list str;
  test_id : list str
}.


End Election.

(** ** Tokeniser wrappers *)

Definition type_repr (v : pyval) : str :=
  match v with
  | PNone => $"<class 'NoneType'>"
  | PBool _ => $"<class 'bool'>"
  | PInt _ => $"<class 'int'>"
  | PStr _ => $"<class 'str'>"
  | PBytes _ => $"<class 'bytes'>"
  end.

Definition isinstance_str (v : pyval) : bool :=
  match v with
  | PStr _ => true
  | _ => false
  end.

Definition not_str_error (text : pyval) : exn :=
  ValueError ($"The paramter must be of type str not " ++ type_repr text).

Section Tokenisers.

(** The tokenisers of [twokenize], [bella.stanford_tools] and
    [mosestokenizer], which the wrappers call and which are not part of
    the sources at hand. *)
Variable tokenizeRawTweetText : str -> outcome (list str).
Variable stanford_tools_tokenise : str -> outcome (list str).
Variable moses_tokeniser : str -> outcome (list str).

Definition whitespace (text : pyval) : outcome (list str) :=
  match text with
  | PStr s => Ok (split s)
  | _ => Raise (not_str_error text)
  end.

Definition ark_twokenize (text : pyval) : outcome (list str) :=
  match text with
  | PStr s => tokenizeRawTweetText s
  | _ => Raise (not_str_error text)
  end.

Definition stanford (text : pyval) : outcome (list str) :=
  match text with
  | PStr s => stanford_tools_tokenise s
  | _ => Raise (not_str_error text)
  end.

Definition moses (text : pyval) : outcome (list str) :=
  match text with
  | PStr s => moses_tokeniser s
  | _ => Raise (not_str_error text)
  end.

End Tokenisers.

(** ** Notions used to state the properties *)

(** A string free of the characters that [re] reads as operators. *)
Definition plain (s : str) : bool := forallb (fun c => negb (Re.special c)) s.

Definition compiles (pattern : str) : bool :=
  match Re.compile pattern with
  | Re.Compiled _ => true
  | _ => false
  end.

(** Both patterns that [dong] derives from a target line are accepted by
    [re]. *)
Definition searchable (tgt : str) : bool :=
  let target := lower tgt in
  compiles target
  && (if 1 <? length (split target) then compiles (join (split target))
      else true).

Definition valid_sentiment (line : str) : bool :=
  match py_int (strip line) with
  | Some z => existsb (Z.eqb z) sentiment_range
  | None => false
  end.

(** [records P n lines]: [lines] is [n] complete (text, target, sentiment)
    triples, each of which satisfies [P]. *)
Inductive records (P : str -> str -> str -> bool) : nat -> list str -> Prop :=
| records_nil : records P 0 []
| records_cons n t g s rest :
    P t g s = true -> records P n rest ->
    records P (S n) (t :: g :: s :: rest).

(** The specification's literal search: the occurrences of [t] in [s] met
    by a left-to-right scan that resumes after each occurrence. *)
Fixpoint literal_scan (t : str) (skip pos : nat) (s : str)
  : list (nat * nat) :=
  match s with
  | [] =>
      match skip, t with
      | O, [] => [(pos, pos)]
      | _, _ => []
      end
  | _ :: r =>
      match skip with
      | S k => literal_scan t k (S pos) r
      | O =>
          if prefixb t s
          then (pos, pos + length t) :: literal_scan t (length t - 1) (S pos) r
          else literal_scan t 0 (S pos) r
      end
  end.

Definition literal_spans (t s : str) : list (nat * nat) :=
  literal_scan t 0 0 s.

(** The specification's exact-recompute resolution. *)
Definition exact_recompute (text target : str) : list (nat * nat) :=
  let text := lower text in
  let target := lower target in
  literal_spans target text
  ++ (if 1 <? length (split target)
      then literal_spans (join (split target)) text
      else []).

(** [t] occurs in [s] at the span [m]. *)
Definition occurs (t s : str) (m : nat * nat) : Prop :=
  snd m = fst m + length t /\ snd m <= length s
  /\ slice s (Z.of_nat (fst m)) (Z.of_nat (snd m)) = t.

(** One complete record, as the three passes of the loop treat it. *)
Definition dong_record (sentiment_data : TargetCollection) (t g s : str)
  : outcome TargetCollection :=
  st <- dong_line 2 s (mkSent (Some (strip t)) (Some (strip g)), sentiment_data) ;;
  Ok (snd st).



Definition record_ok (t g s : str) : bool :=
  valid_sentiment s && searchable (strip g).

(** The ids of a collection that [dong] has filled so far. *)
Definition counted (coll : TargetCollection) : Prop :=
  map target_id coll = map str_of_nat (seq 0 (length coll)).

(** What [dong] makes of the [i]-th record of [lines]. *)
Definition reads (lines : list str) (i : nat) (id : nat) (t : Target) : Prop :=
  exists z,
    target_id t = str_of_nat id
    /\ text t = PStr (strip (nth (3 * i) lines []))
    /\ target t = strip (nth (3 * i + 1) lines [])
    /\ py_int (strip (nth (3 * i + 2) lines [])) = Some z
    /\ sentiment t = PInt z.

(** Spans in the order of their positions, none overlapping the next. *)
Definition left_to_right (l : list (nat * nat)) : Prop :=
  StronglySorted (fun m m' => snd m <= fst m' /\ fst m < fst m') l.


(** The text at [[at_, at_ + len(target))] is the target, case aside. *)
Definition fits (tweet_text target : str) (at_ : Z) : Prop :=
  lower (slice tweet_text at_ (at_ + Z.of_nat (length target))) = lower target.

Definition span_at (target : str) (at_ : Z) : list (Z * Z) :=
  [(at_, (at_ + Z.of_nat (length target))%Z)].







Definition kippers_folder : Election.folder :=
  Election.mkFolder
    [($"575270720671973376.json",
      Election.mkTweet $"I like Kippers" [Election.mkEntity $"kippers" 3 8])]
    [($"575270720671973376.json",
      Election.mkAnno [($"3", PStr $"positive")] Election.NotDict)]
    [$"75270720671973376"] [].

Definition kippers_target : Target :=
  mkTarget (PStr $"I like Kippers") $"kippers" [(PInt 7, PInt 14)]
           (PStr $"positive") $"75270720671973376#3"
           (Some $"75270720671973376").

Definition skips (tweet_id tweet_text : str) (kv : str * pyval) : Prop :=
  Election.fuzzy_target_match tweet_id tweet_text (fst kv) = Ok None.

Definition no_ids (l : Election.locals) : Prop :=
  Election.target_ids l = [].

Definition polarity_of (aspect_term : Element) : outcome str :=
  get (attrib_of aspect_term) $"polarity".

(** The sentiment of [d] is the table's entry for the polarity of [term]. *)
Definition mapped (term : Element) (d : aspect_dict) : Prop :=
  exists p, polarity_of term = Ok p /\ In (p, a_sentiment d) sentiment_mapper.

Definition unknown_polarity (p : str) : Prop :=
  ~ In p (map fst sentiment_mapper).

Definition table_sentiment (t : Target) : Prop :=
  exists p z, In (p, z) sentiment_mapper /\ sentiment t = PInt z.

Definition term_elem (term polarity from to : str) : Element :=
  Elem $"aspectTerm"
       [($"term", term); ($"polarity", polarity); ($"from", from); ($"to", to)]
       None [].

Definition nonspace (c : ascii) : bool := negb (isspace c).

(** A token: not empty and free of whitespace. *)
Definition token (w : str) : Prop := w <> [] /\ forallb nonspace w = true.

(** The message of the [ValueError] for a sentiment outside the range. *)
Definition range_error (sentiment : Z) : exn :=
  ValueError ($"The sentiment has to be one of the following values [-1, 0, 1] not "
              ++ str_of_Z sentiment).



Definition has_tag (tag : str) (e : Element) : bool := str_eqb (tag_of e) tag.

(** The [ValueError] for a sentence with aspect terms and no text. *)
Definition text_error (file_path sentence_id : str) : exn :=
  ValueError ($"A semeval sentence should always have text semeval file "
              ++ file_path ++ $" sentence id " ++ sentence_id).

(** The dictionary [d] is the one built for [term], the [index]-th
    aspectTerm of the sentence [sentence_id]. *)
Definition aspect_of (sentence_id : str) (index : nat) (term : Element)
  (d : aspect_dict) : Prop :=
  a_target_id d = sentence_id ++ str_of_nat index
  /\ get (attrib_of term) $"term" = Ok (a_target d)
  /\ (exists from to,
         get (attrib_of term) $"from" = Ok from
         /\ get (attrib_of term) $"to" = Ok to
         /\ a_spans d = [(PStr from, PStr to)])
  /\ a_text d = None.

(** The root element of a semeval file with the given sentences. *)
Definition sentences_root (attrib : list (str * str)) (txt : option str)
  (sentences : list Element) : Element :=
  Elem $"sentences" attrib txt sentences.

(** The key of a folder entry. *)
Definition file_key {J} (entry : str * J) : str :=
  Election.tweet_id_of (fst entry).

(** [tweet_id + '#' + str(entity_id)] *)
Definition numbered (tweet_id : str) (entity_id : Z) : str :=
  tweet_id ++ $"#" ++ str_of_Z entity_id.

(** A Target whose sentiment is not the label [doesnotapply]. *)
Definition applies (t : Target) : bool :=
  negb (Election.pyval_eqb_str (sentiment t) $"doesnotapply").

(** The Target that [parse_tweet] builds for the detected entity [e]. *)
Definition entity_target (anno : Election.annotation)
  (tweet_id tweet_text : str) (e : Election.entity) (t : Target) : Prop :=
  target_id t = numbered tweet_id (Election.e_id e)
  /\ target t = Election.e_entity e
  /\ text t = PStr tweet_text
  /\ sentence_id t = Some tweet_id
  /\ get (Election.items anno) (str_of_Z (Election.e_id e)) = Ok (sentiment t).


(** A folder of two tweets, and the Target of the second. *)
Definition two_tweets : list (str * Election.tweet) :=
  [($"1", Election.mkTweet $"I like Kippers" [Election.mkEntity $"kippers" 3 8]);
   ($"2", Election.mkTweet $"Tax the rich" [Election.mkEntity $"tax" 0 0])].

Definition two_annotations : list (str * Election.annotation) :=
  [($"1", Election.mkAnno [($"3", PStr $"positive")] Election.NotDict);
   ($"2", Election.mkAnno [($"0", PStr $"negative")] Election.NotDict)].

Definition first_tweet_target : Target :=
  mkTarget (PStr $"I like Kippers") $"kippers" [(PInt 7, PInt 14)]
           (PStr $"positive") $"1#3" (Some $"1").

Definition second_tweet_target : Target :=
  mkTarget (PStr $"Tax the rich") $"tax" [(PInt 0, PInt 3)]
           (PStr $"negative") $"2#0" (Some $"2").



(** * Properties *)

(** ** Strings and outcomes *)

Lemma str_eqb_refl (a : str) : str_eqb a a = true.
Proof.
  induction a as [|x a IH]; simpl; [reflexivity|].
  now rewrite Ascii.eqb_refl.
Qed.

Lemma str_eqb_eq (a b : str) : str_eqb a b = true -> a = b.
Proof.
  revert b; induction a as [|x a IH]; intros [|y b] H; simpl in H;
    try discriminate; [reflexivity|].
  apply andb_true_iff in H as [Hx Hr].
  apply Ascii.eqb_eq in Hx. f_equal; auto.
Qed.

Lemma str_eqb_neq (a b : str) : a <> b -> str_eqb a b = false.
Proof.
  intros H. destruct (str_eqb a b) eqn:E; [|reflexivity].
  now apply str_eqb_eq in E.
Qed.

Lemma str_of_nat_inj (n m : nat) : str_of_nat n = str_of_nat m -> n = m.
Proof.
  unfold str_of_nat. intros H.
  apply (f_equal string_of_list_ascii) in H.
  rewrite !string_of_list_ascii_of_string in H.
  apply (f_equal NilEmpty.uint_of_string) in H.
  rewrite !NilEmpty.usu in H.
  injection H as H. now apply DecimalNat.Unsigned.to_uint_inj.
Qed.

Lemma bind_ext {A B} (m : outcome A) (k k' : A -> outcome B) :
  (forall a, k a = k' a) -> bind m k = bind m k'.
Proof. intros H. destruct m; simpl; auto. Qed.

Lemma bind_ok {A B} (m : outcome A) (k : A -> outcome B) (b : B) :
  bind m k = Ok b -> exists a, m = Ok a /\ k a = Ok b.
Proof. destruct m; simpl; intros H; try discriminate. eauto. Qed.

(** ** Worked examples of the library model *)

Example finditer_cat :
  Re.finditer $"cat" $"the cat sat on the cat mat" = Ok [(4, 7); (19, 22)].
Proof. reflexivity. Qed.

Example finditer_empty : Re.finditer $"" $"ab" = Ok [(0, 0); (1, 1); (2, 2)].
Proof. reflexivity. Qed.

Example finditer_overlap : Re.finditer $"aa" $"aaaaa" = Ok [(0, 2); (2, 4)].
Proof. reflexivity. Qed.

Example int_error_examples :
  int_error $"positive"
  = ValueError $"invalid literal for int() with base 10: 'positive'"
  /\ int_error $"it's"
     = ValueError ($"invalid literal for int() with base 10: "
                   ++ [double_quote] ++ $"it's" ++ [double_quote])
  /\ int_error $"1\2"
     = ValueError $"invalid literal for int() with base 10: '1\\2'"
  /\ int_error [ascii_of_nat 49; ascii_of_nat 160; ascii_of_nat 50]
     = ValueError $"invalid literal for int() with base 10: '1\xa02'".
Proof. repeat split. Qed.

Example py_int_examples :
  map py_int [$"1"; $"-1"; $"+1"; $"1_0"; $"_1"; $"1_"; $"--1"; $""; $"-"; $"00"; $"1__0"]
  = [Some 1; Some (-1); Some 1; Some 10; None; None; None; None; None; Some 0; None]%Z.
Proof. reflexivity. Qed.

Example split_example : split $" a  b c " = [$"a"; $"b"; $"c"].
Proof. reflexivity. Qed.

Example str_examples :
  (str_of_nat 0, str_of_nat 12, str_of_Z (-5)%Z, str_of_Z 0) = ($"0", $"12", $"-5", $"0").
Proof. reflexivity. Qed.

Example dong_two_records :
  option_map (map (fun t => (target_id t, spans t, sentiment t)))
    (match dong_lines [$"The cat sat on the Cat mat"; $" cat "; $"1";
                       $"new york is newyork"; $"New York"; $"-1"]
     with Ok c => Some c | _ => None end)
  = Some [($"0", [(PInt 4, PInt 7); (PInt 19, PInt 22)], PInt 1);
          ($"1", [(PInt 0, PInt 8); (PInt 12, PInt 19)], PInt (-1))]%Z.
Proof. vm_compute. reflexivity. Qed.

(** ** [dong]: the cycle of three lines *)

Lemma dong_line_cycle (k j : nat) (line : str) st :
  dong_line (3 * k + j) line st = dong_line j line st.
Proof.
  unfold dong_line.
  replace ((3 * k + j + 1) mod 3) with ((j + 1) mod 3); [reflexivity|].
  replace (3 * k + j + 1) with ((j + 1) + k * 3) by lia.
  now rewrite Nat.Div0.mod_add.
Qed.

Lemma dong_line_text (k : nat) (line : str) sent coll :
  dong_line (3 * k) line (sent, coll)
  = Ok (mkSent (Some (strip line)) (sd_target sent), coll).
Proof.
  replace (3 * k) with (3 * k + 0) by lia. now rewrite dong_line_cycle.
Qed.

Lemma dong_line_target (k : nat) (line : str) sent coll :
  dong_line (S (3 * k)) line (sent, coll)
  = Ok (mkSent (sd_text sent) (Some (strip line)), coll).
Proof.
  replace (S (3 * k)) with (3 * k + 1) by lia. now rewrite dong_line_cycle.
Qed.

Lemma dong_line_sentiment (k : nat) (line : str) st :
  dong_line (S (S (3 * k))) line st = dong_line 2 line st.
Proof.
  replace (S (S (3 * k))) with (3 * k + 2) by lia. apply dong_line_cycle.
Qed.

Lemma dong_line_resets (line : str) st sent' coll' :
  dong_line 2 line st = Ok (sent', coll') -> sent' = mkSent None None.
Proof.
  destruct st as [sent coll]. unfold dong_line. cbn.
  destruct (py_int (strip line)) as [z|]; [|discriminate].
  destruct (negb _); [discriminate|].
  destruct (item _ (sd_text sent)); cbn; try discriminate.
  destruct (item _ (sd_target sent)); cbn; try discriminate.
  destruct (dong_offsets _ _); cbn; try discriminate.
  destruct (add coll _); cbn; try discriminate.
  intros E. now inversion E.
Qed.

Lemma dong_loop_record (k : nat) (t g s : str) (rest : list str) sent coll :
  dong_loop (3 * k) (t :: g :: s :: rest) (sent, coll)
  = (coll' <- dong_record coll t g s ;;
     dong_loop (3 * S k) rest (mkSent None None, coll')).
Proof.
  cbn [dong_loop].
  rewrite dong_line_text. cbn [bind].
  rewrite dong_line_target. cbn [bind sd_text].
  rewrite dong_line_sentiment.
  replace (S (S (S (3 * k)))) with (3 * S k) by lia.
  unfold dong_record.
  destruct (dong_line 2 s (mkSent (Some (strip t)) (Some (strip g)), coll))
    as [[sent' coll']| |] eqn:E; cbn [bind snd]; try reflexivity.
  now rewrite (dong_line_resets _ _ E).
Qed.

Lemma dong_loop_partial (k : nat) (tail : list str) sent coll :
  length tail < 3 -> dong_loop (3 * k) tail (sent, coll) = Ok coll.
Proof.
  intros H.
  destruct tail as [|a [|b [|c tail]]]; simpl in H; try lia.
  - reflexivity.
  - cbn [dong_loop]. now rewrite dong_line_text.
  - cbn [dong_loop]. rewrite dong_line_text. cbn [bind].
    now rewrite dong_line_target.
Qed.

Lemma dong_loop_drops_tail (n : nat) :
  forall (body tail : list str) k sent coll,
    length body = 3 * n -> length tail < 3 ->
    dong_loop (3 * k) (body ++ tail) (sent, coll)
    = dong_loop (3 * k) body (sent, coll).
Proof.
  induction n as [|n IH]; intros body tail k sent coll Hb Ht.
  - destruct body; [|simpl in Hb; lia]. simpl app.
    now rewrite dong_loop_partial.
  - destruct body as [|t [|g [|s body]]]; simpl in Hb; try lia.
    cbn [app]. rewrite !dong_loop_record.
    apply bind_ext. intros coll'. apply IH; [lia|assumption].
Qed.

Lemma records_length P (n : nat) (lines : list str) :
  records P n lines -> length lines = 3 * n.
Proof. induction 1; simpl; lia. Qed.

Lemma counted_fresh (coll : TargetCollection) :
  counted coll -> has_id coll (str_of_nat (length coll)) = false.
Proof.
  unfold counted, has_id. intros H.
  destruct (existsb _ coll) eqn:E; [|reflexivity].
  apply existsb_exists in E as (t & Hin & Heq).
  apply str_eqb_eq in Heq.
  assert (Hid : In (target_id t) (map target_id coll)) by now apply in_map.
  rewrite H in Hid. apply in_map_iff in Hid as (j & Hj & Hseq).
  apply in_seq in Hseq. rewrite Heq in Hj. apply str_of_nat_inj in Hj. lia.
Qed.

Lemma counted_add (coll : TargetCollection) (t : Target) :
  counted coll -> target_id t = str_of_nat (length coll) ->
  counted (coll ++ [t]).
Proof.
  unfold counted. intros H Hid.
  rewrite map_app, length_app, Nat.add_1_r, seq_S, map_app, H. simpl.
  now rewrite Hid.
Qed.

Lemma searchable_offsets (txt tgt : str) :
  searchable tgt = true -> exists offsets, dong_offsets txt tgt = Ok offsets.
Proof.
  unfold searchable, dong_offsets, compiles, Re.finditer.
  intros H. apply andb_true_iff in H as [H1 H2].
  destruct (Re.compile (lower tgt)); try discriminate. cbn [bind].
  destruct (1 <? length (split (lower tgt))); [|eauto].
  destruct (Re.compile (join (split (lower tgt)))); try discriminate.
  cbn [bind]. eauto.
Qed.

Lemma dong_record_ok (coll : TargetCollection) (t g s : str) :
  record_ok t g s = true -> counted coll ->
  exists z offsets,
    py_int (strip s) = Some z
    /\ dong_offsets (strip t) (strip g) = Ok offsets
    /\ dong_record coll t g s
       = Ok (coll ++ [mkTarget (PStr (strip t)) (strip g)
                               (map int_span offsets) (PInt z)
                               (str_of_nat (length coll)) None]).
Proof.
  intros H Hc. apply andb_true_iff in H as [Hs Hg].
  unfold valid_sentiment in Hs.
  destruct (py_int (strip s)) as [z|] eqn:Ez; [|discriminate].
  destruct (searchable_offsets (strip t) _ Hg) as [offsets Ho].
  exists z, offsets. repeat split; auto.
  unfold dong_record, dong_line.
  cbn -[existsb sentiment_range py_int strip dong_offsets add str_of_nat].
  rewrite Ez, Hs. cbn [negb item bind].
  rewrite Ho. cbn [bind]. unfold add. cbn [target_id].
  now rewrite (counted_fresh Hc).
Qed.

Lemma dong_loop_records (n : nat) (lines : list str) :
  records record_ok n lines ->
  forall k sent coll, length coll = k -> counted coll ->
    exists coll',
      dong_loop (3 * k) lines (sent, coll) = Ok (coll ++ coll')
      /\ length coll' = n
      /\ forall i, i < n ->
           exists t, nth_error coll' i = Some t /\ reads lines i (k + i) t.
Proof.
  induction 1 as [|n t g s rest Hok _ IH]; intros k sent coll Hk Hc.
  - exists []. rewrite app_nil_r. repeat split; auto. intros i Hi; lia.
  - rewrite dong_loop_record.
    destruct (@dong_record_ok coll t g s Hok Hc) as (z & offsets & Hz & Ho & Hr).
    rewrite Hr. cbn [bind].
    set (T := mkTarget _ _ _ _ _ _) in *.
    destruct (IH (S k) (mkSent None None) (coll ++ [T])) as (c & Hl & Hn & Hi).
    { rewrite length_app; simpl; lia. }
    { now apply counted_add. }
    exists (T :: c). rewrite <- app_assoc in Hl.
    split; [exact Hl|]. split; [simpl; auto|].
    intros [|i] Hlt.
    + exists T. split; [reflexivity|]. exists z.
      rewrite Nat.add_0_r, <- Hk. now repeat split.
    + destruct (Hi i) as (u & Hu & z' & Hid & Htx & Htg & Hpz & Hsn); [lia|].
      exists u. split; [exact Hu|]. exists z'.
      replace (3 * S i) with (S (S (S (3 * i)))) by lia.
      replace (k + S i) with (S k + i) by lia.
      now repeat split.
Qed.

Lemma complete_part (lines : list str) :
  let m := 3 * (length lines / 3) in
  length (firstn m lines) = 3 * (length lines / 3)
  /\ length (skipn m lines) < 3.
Proof.
  cbv zeta.
  pose proof (Nat.div_mod_eq (length lines) 3) as E.
  pose proof (Nat.mod_upper_bound (length lines) 3) as U.
  rewrite length_firstn, length_skipn. lia.
Qed.

(** C4, as amended: [dong] raises no error for a line count that is not a
    multiple of three.  It returns exactly what it returns on the complete
    records that precede the trailing partial one, so that, when those [n]
    records are well formed, the result is a collection of [n] targets. *)
Theorem dong_drops_partial_record
  (fs : filesystem) (file_path : str) (lines : list str) :
  fs file_path = Some lines ->
  length lines mod 3 <> 0 ->
  let complete := firstn (3 * (length lines / 3)) lines in
  dong fs file_path = dong_lines complete
  /\ forall n, records record_ok n complete ->
       exists coll, dong fs file_path = Ok coll /\ length coll = n.
Proof.
  intros Hfs _ complete.
  assert (E : dong fs file_path = dong_lines complete).
  { unfold dong. rewrite Hfs.
    rewrite <- (firstn_skipn (3 * (length lines / 3)) lines) at 1.
    destruct (complete_part lines) as [Hc Ht].
    unfold dong_lines. change 0 with (3 * 0).
    now apply dong_loop_drops_tail with (n := length lines / 3). }
  split; [exact E|].
  intros n Hn. rewrite E. unfold dong_lines. change 0 with (3 * 0).
  destruct (dong_loop_records Hn (k := 3 * 0 / 3) (mkSent None None)
              (coll := [])) as (c & Hc & Hl & _);
    [reflexivity|reflexivity|].
  exists c. split; [exact Hc|exact Hl].
Qed.

(** ** Patterns without operators are searched for literally *)

Lemma special_false (c : ascii) :
  Re.special c = false ->
  Ascii.eqb "[" c = false /\ Ascii.eqb c "." = false /\ mem c $"*+?" = false.
Proof.
  unfold Re.special, mem. cbn [existsb list_ascii_of_string].
  intros H. repeat (apply orb_false_iff in H as [? H]).
  split; [first [assumption | rewrite Ascii.eqb_sym; assumption]|].
  split; [assumption|].
  repeat match goal with
         | E : Ascii.eqb c _ = false |- _ => rewrite E; clear E
         end.
  reflexivity.
Qed.

Lemma parse_plain (s : str) :
  plain s = true -> Re.parse s = Some (map Re.Lit s).
Proof.
  induction s as [|c r IH]; [reflexivity|].
  cbn [plain forallb]. intros H. apply andb_true_iff in H as [Hc Hr].
  apply negb_true_iff in Hc.
  destruct (special_false c Hc) as (Hb & Hd & _).
  cbn [Re.parse]. unfold Re.starts_class.
  cbn [prefixb list_ascii_of_string]. rewrite Hb. cbn [andb].
  rewrite Hd, Hc. unfold plain in IH. rewrite (IH Hr). reflexivity.
Qed.

Lemma compile_plain (s : str) :
  plain s = true -> Re.compile s = Re.Compiled (map Re.Lit s).
Proof.
  intros H. pose proof (parse_plain s H) as P.
  destruct s as [|c r]; [reflexivity|].
  cbn [plain forallb] in H. apply andb_true_iff in H as [Hc _].
  apply negb_true_iff in Hc.
  destruct (special_false c Hc) as (_ & _ & Hq).
  unfold Re.compile. now rewrite Hq, P.
Qed.

Lemma match_here_lit (t s : str) :
  Re.match_here (map Re.Lit t) s = prefixb t s.
Proof.
  revert s; induction t as [|a t IH]; intros [|c s]; simpl; auto.
  now rewrite IH.
Qed.

Lemma scan_lit (t : str) :
  forall (s : str) (skip pos : nat),
    Re.scan (map Re.Lit t) skip pos s = literal_scan t skip pos s.
Proof.
  induction s as [|c r IH]; intros skip pos.
  - destruct skip, t; reflexivity.
  - cbn [Re.scan literal_scan]. destruct skip as [|k]; [|apply IH].
    rewrite match_here_lit, length_map, !IH. reflexivity.
Qed.

Lemma finditer_plain (t s : str) :
  plain t = true -> Re.finditer t s = Ok (literal_spans t s).
Proof.
  intros H. unfold Re.finditer. rewrite compile_plain by exact H.
  now rewrite scan_lit.
Qed.

Lemma in_split_from (c : ascii) :
  forall (s cur : str),
    In c (concat (split_from cur s)) -> In c cur \/ In c s.
Proof.
  induction s as [|x r IH]; intros cur H.
  - destruct cur; simpl in H; [contradiction|].
    rewrite app_nil_r in H. left. now apply in_rev.
  - cbn [split_from] in H. destruct (isspace x).
    + destruct cur as [|y cur].
      * apply IH in H as [[]|H]. right; now right.
      * cbn [concat] in H. apply in_app_or in H as [H|H].
        -- left. now apply in_rev.
        -- apply IH in H as [[]|H]. right; now right.
    + apply IH in H as [[H|H]|H]; subst; auto.
      * right; now left.
      * right; now right.
Qed.

Lemma plain_join_split (s : str) :
  plain s = true -> plain (join (split s)) = true.
Proof.
  unfold plain, join, split. rewrite !forallb_forall.
  intros H c Hc. apply in_split_from in Hc as [[]|Hc]. now apply H.
Qed.

Lemma dong_offsets_plain (txt tgt : str) :
  plain (lower tgt) = true ->
  dong_offsets txt tgt = Ok (exact_recompute txt tgt).
Proof.
  intros H. unfold dong_offsets, exact_recompute.
  rewrite finditer_plain by exact H. cbn [bind].
  destruct (1 <? length (split (lower tgt))).
  - rewrite finditer_plain by (apply plain_join_split; exact H).
    reflexivity.
  - now rewrite app_nil_r.
Qed.


(** ** What the literal scan returns *)

Lemma prefixb_firstn (t s : str) :
  prefixb t s = true -> firstn (length t) s = t /\ length t <= length s.
Proof.
  revert s; induction t as [|a t IH]; intros [|c s] H; simpl in *;
    try discriminate; try (split; [reflexivity|lia]).
  apply andb_true_iff in H as [Ha Ht]. apply Ascii.eqb_eq in Ha. subst.
  destruct (IH s Ht) as [E L]. rewrite E. split; [reflexivity|lia].
Qed.

Lemma literal_scan_sound (t : str) :
  forall (s : str) (skip pos : nat) (m : nat * nat),
    In m (literal_scan t skip pos s) ->
    pos + skip <= fst m
    /\ snd m = fst m + length t
    /\ fst m <= pos + length s
    /\ prefixb t (skipn (fst m - pos) s) = true.
Proof.
  induction s as [|c r IH]; intros skip pos m H.
  - destruct skip, t; simpl in H; try contradiction.
    destruct H as [<-|[]]. simpl. repeat split; try reflexivity; lia.
  - cbn [literal_scan] in H. destruct skip as [|k].
    + destruct (prefixb t (c :: r)) eqn:P.
      * destruct H as [<-|H].
        -- cbn [fst snd]. rewrite Nat.sub_diag. cbn [skipn length].
           repeat split; auto; lia.
        -- apply IH in H as (H1 & H2 & H3 & H4).
           replace (fst m - pos) with (S (fst m - S pos)) by lia.
           cbn [skipn length]. repeat split; auto; lia.
      * apply IH in H as (H1 & H2 & H3 & H4).
        replace (fst m - pos) with (S (fst m - S pos)) by lia.
        cbn [skipn length]. repeat split; auto; lia.
    + apply IH in H as (H1 & H2 & H3 & H4).
      replace (fst m - pos) with (S (fst m - S pos)) by lia.
      cbn [skipn length]. repeat split; auto; lia.
Qed.

Lemma slice_nat (s : str) (a b : nat) :
  a <= b -> b <= length s ->
  slice s (Z.of_nat a) (Z.of_nat b) = firstn (b - a) (skipn a s).
Proof.
  intros Hab Hb. unfold slice, clip.
  destruct (Z.ltb_spec (Z.of_nat a) 0); [lia|].
  destruct (Z.ltb_spec (Z.of_nat b) 0); [lia|].
  rewrite !Z.min_l by lia.
  rewrite <- Nat2Z.inj_sub, !Nat2Z.id by lia. reflexivity.
Qed.

Lemma literal_spans_occur (t s : str) (m : nat * nat) :
  In m (literal_spans t s) -> occurs t s m.
Proof.
  intros H. apply literal_scan_sound in H as (_ & H2 & H3 & H4).
  rewrite Nat.sub_0_r in H4.
  apply prefixb_firstn in H4 as [E L]. rewrite length_skipn in L.
  simpl in H3. unfold occurs. split; [exact H2|]. split; [lia|].
  rewrite slice_nat by lia.
  replace (snd m - fst m) with (length t) by lia. exact E.
Qed.

Lemma literal_scan_ordered (t : str) :
  forall (s : str) (skip pos : nat),
    left_to_right (literal_scan t skip pos s).
Proof.
  unfold left_to_right.
  induction s as [|c r IH]; intros skip pos.
  - destruct skip, t; simpl; repeat constructor.
  - cbn [literal_scan]. destruct skip as [|k]; [|apply IH].
    destruct (prefixb t (c :: r)); [|apply IH].
    constructor; [apply IH|].
    apply Forall_forall. intros m Hm.
    apply literal_scan_sound in Hm as (H1 & _). cbn [fst snd]. lia.
Qed.

Lemma literal_spans_all_occur (t s : str) :
  Forall (occurs t s) (literal_spans t s).
Proof. apply Forall_forall. intros m. apply literal_spans_occur. Qed.

(** C6, as amended: exact-recompute resolution lower-cases text and target
    and searches for the target as a regular expression.  For a target
    without operator characters the result is the list of its
    non-overlapping occurrences, met scanning left to right, followed by
    those of the concatenated words when the target has more than one word;
    every span is an occurrence, and the list may be empty. *)
Theorem exact_recompute_plain (text target : str) :
  plain (lower target) = true ->
  let low_text := lower text in
  let low_target := lower target in
  let joined := join (split low_target) in
  dong_offsets text target
  = Ok (literal_spans low_target low_text
        ++ (if 1 <? length (split low_target)
            then literal_spans joined low_text else []))
  /\ Forall (occurs low_target low_text) (literal_spans low_target low_text)
  /\ left_to_right (literal_spans low_target low_text)
  /\ Forall (occurs joined low_text) (literal_spans joined low_text)
  /\ left_to_right (literal_spans joined low_text).
Proof.
  intros H. cbv zeta. split; [now apply dong_offsets_plain|].
  split; [apply literal_spans_all_occur|].
  split; [apply literal_scan_ordered|].
  split; [apply literal_spans_all_occur|apply literal_scan_ordered].
Qed.

Lemma exact_recompute_cat :
  dong_offsets $"the cat sat on the cat mat" $"cat" = Ok [(4, 7); (19, 22)].
Proof.
  exact (proj1 (exact_recompute_plain $"the cat sat on the cat mat" $"cat"
                  eq_refl)).
Defined.

Lemma exact_recompute_counterexample :
  dong_offsets $"the cat" $"c.t" = Ok [(4, 7)]
  /\ slice (lower $"the cat") 4 7 <> lower $"c.t"
  /\ exact_recompute $"the cat" $"c.t" = [].
Proof. repeat split. vm_compute. discriminate. Qed.

Example exact_recompute_no_match : dong_offsets $"a dog" $"cat" = Ok [].
Proof. reflexivity. Qed.

Example exact_recompute_joined :
  dong_offsets $"New York is newyork" $"new york" = Ok [(0, 8); (12, 19)].
Proof. reflexivity. Qed.

Example exact_recompute_overlap : dong_offsets $"aaaa" $"aa" = Ok [(0, 2); (2, 4)].
Proof. reflexivity. Qed.

Lemma dong_partial_record_counterexample :
  let lines := [$"Good film"; $"film"; $"1"; $"a text without its target"] in
  let fs : filesystem := fun _ => Some lines in
  length lines mod 3 <> 0
  /\ is_raise (dong fs $"data.txt") = false
  /\ exists coll, dong fs $"data.txt" = Ok coll /\ length coll = 1.
Proof.
  cbv zeta. split; [vm_compute; discriminate|]. split; [reflexivity|].
  eexists. split; reflexivity.
Qed.

Lemma dong_drops_partial_record_witness :
  let lines := [$"Good film"; $"film"; $"1"; $"a text without its target"] in
  let fs : filesystem := fun _ => Some lines in
  dong fs $"data.txt" = dong_lines [$"Good film"; $"film"; $"1"].
Proof.
  cbv zeta.
  refine (proj1 (@dong_drops_partial_record
                   (fun _ => Some [$"Good film"; $"film"; $"1";
                                   $"a text without its target"])
                   $"data.txt" _ eq_refl _)).
  vm_compute. discriminate.
Defined.





(** ** [election]: spans from offset hints *)

Lemma str_eqb_iff (a b : str) : str_eqb a b = true <-> a = b.
Proof.
  split; [apply str_eqb_eq|]. intros ->. apply str_eqb_refl.
Qed.

Lemma shifted_cons (sh : Z) (rest : list Z) (from : Z) (txt tgt : str) :
  (fits txt tgt (from + sh) ->
   Election.shifted (sh :: rest) from txt tgt = Some (span_at tgt (from + sh)))
  /\ (~ fits txt tgt (from + sh) ->
      Election.shifted (sh :: rest) from txt tgt
      = Election.shifted rest from txt tgt).
Proof.
  unfold fits. cbn [Election.shifted].
  destruct (str_eqb _ _) eqn:E.
  - split; [reflexivity|]. intros N. apply str_eqb_eq in E. contradiction.
  - split; [|reflexivity]. intros F. apply str_eqb_iff in F. congruence.
Qed.


(** C2: hint-shift resolution tries the shifts 0, -1, +1 in that order,
    returns the one span of the first shift at which the text is the target
    case aside, and raises the offset error when none of the three fits. *)
Theorem get_offsets_shifts
  (tweet_id : str) (entity : Election.entity) (tweet_text target : str) :
  let from := Election.e_offset entity in
  let result := Election.get_offsets tweet_id entity tweet_text target in
  (fits tweet_text target from -> result = Ok (span_at target from))
  /\ (~ fits tweet_text target from ->
      fits tweet_text target (from - 1) ->
      result = Ok (span_at target (from - 1)))
  /\ (~ fits tweet_text target from ->
      ~ fits tweet_text target (from - 1) ->
      fits tweet_text target (from + 1) ->
      result = Ok (span_at target (from + 1)))
  /\ (~ fits tweet_text target from ->
      ~ fits tweet_text target (from - 1) ->
      ~ fits tweet_text target (from + 1) ->
      result
      = Raise (Election.offset_error tweet_id from tweet_text target)).
Proof.
  cbv zeta. unfold Election.get_offsets, Election.offset_shifts.
  set (from := Election.e_offset entity).
  destruct (shifted_cons 0 [-1; 1]%Z from tweet_text target) as [A0 B0].
  destruct (shifted_cons (-1) [1]%Z from tweet_text target) as [A1 B1].
  destruct (shifted_cons 1 [] from tweet_text target) as [A2 B2].
  rewrite Z.add_0_r in A0, B0.
  change (from + -1)%Z with (from - 1)%Z in A1, B1.
  repeat split.
  - intros F0. now rewrite (A0 F0).
  - intros N0 F1. now rewrite (B0 N0), (A1 F1).
  - intros N0 N1 F2. now rewrite (B0 N0), (B1 N1), (A2 F2).
  - intros N0 N1 N2. now rewrite (B0 N0), (B1 N1), (B2 N2).
Qed.

Lemma get_offsets_kippers :
  Election.get_offsets $"75270720671973376"
    (Election.mkEntity $"kippers" 3 8) $"I like kippers" $"kippers"
  = Ok [(7, 14)]%Z.
Proof.
  refine (proj1 (proj2 (@get_offsets_shifts $"75270720671973376"
                          (Election.mkEntity $"kippers" 3 8)
                          $"I like kippers" $"kippers")) _ _).
  - vm_compute. discriminate.
  - reflexivity.
Defined.

Example get_offsets_none :
  Election.get_offsets $"1" (Election.mkEntity $"kippers" 3 10)
    $"I like kippers" $"kippers"
  = Raise (Election.offset_error $"1" 10 $"I like kippers" $"kippers").
Proof. reflexivity. Qed.

Example get_offsets_case :
  Election.get_offsets $"1" (Election.mkEntity $"ukip" 0 1) $"#UKIP wins" $"ukip"
  = Ok [(1, 5)]%Z.
Proof. reflexivity. Qed.

(** ** [election]: fuzzy resolution of additional targets *)






Example fuzzy_tax_plan :
  Election.fuzzy_target_match $"1" $"I hate the new tax plan" $"tax"
  = Ok (Some [(15, 18)]).
Proof. reflexivity. Qed.

(** ** Spans and the text they cover *)








Lemma collect_app (ts : list Target) :
  forall c c', collect c ts = Ok c' -> c' = c ++ ts.
Proof.
  induction ts as [|t r IH]; intros c c' H.
  - cbn in H. inversion H. now rewrite app_nil_r.
  - cbn [collect] in H. apply bind_ok in H as (c1 & H1 & H2).
    unfold add in H1. destruct (has_id c _); [discriminate|].
    inversion H1; subst. apply IH in H2. now rewrite <- app_assoc in H2.
Qed.





Example semeval_spans_are_attributes :
  semeval $"restaurants.xml"
    (Elem $"sentences" [] None
       [Elem $"sentence" [($"id", $"813")] None
          [Elem $"text" [] (Some $"The food was great") [];
           Elem $"aspectTerms" [] None
             [Elem $"aspectTerm"
                [($"term", $"service"); ($"polarity", $"positive");
                 ($"from", $"0"); ($"to", $"40")] None []]]])
  = Ok [mkTarget (PStr $"The food was great") $"service"
                 [(PStr $"0", PStr $"40")] (PInt 1) $"8130" None].
Proof. reflexivity. Qed.

Example additional_span_has_boundary :
  Election.parse_tweet false true
    (Election.mkTweet $"A tax, a taxi" [Election.mkEntity $"taxi" 7 9])
    (Election.mkAnno [($"7", PStr $"neutral")]
       (Election.AsDict [($"tax", PStr $"negative")]))
    $"1"
  = Ok [mkTarget (PStr $"A tax, a taxi") $"taxi" [(PInt 9, PInt 13)]
                 (PStr $"neutral") $"1#7" (Some $"1");
        mkTarget (PStr $"A tax, a taxi") $"tax" [(PInt 1, PInt 6)]
                 (PStr $"negative") $"1#8" (Some $"1")].
Proof. reflexivity. Qed.

(** ** [election]: additional items of a tweet without entities *)

Lemma additional_step_skip tweet_id txt kv l :
  skips tweet_id txt kv -> Election.additional_step tweet_id txt kv l = Ok l.
Proof.
  unfold skips, Election.additional_step. destruct kv as [tgt snt].
  cbn [fst]. now intros ->.
Qed.

Lemma additional_step_resolved tweet_id txt kv l ms :
  no_ids l ->
  Election.fuzzy_target_match tweet_id txt (fst kv) = Ok (Some ms) ->
  Election.additional_step tweet_id txt kv l
  = Raise (ValueError $"max() arg is an empty sequence").
Proof.
  unfold no_ids, Election.additional_step. destruct kv as [tgt snt].
  cbn [fst]. intros Hn ->. cbn [bind]. now rewrite Hn.
Qed.

Lemma additional_step_raises tweet_id txt kv l e :
  Election.fuzzy_target_match tweet_id txt (fst kv) = Raise e ->
  Election.additional_step tweet_id txt kv l = Raise e.
Proof.
  unfold Election.additional_step. destruct kv as [tgt snt].
  cbn [fst]. now intros ->.
Qed.

Lemma additional_loop_skips tweet_id txt pairs l :
  Forall (skips tweet_id txt) pairs ->
  Election.additional_loop tweet_id txt pairs l = Ok l.
Proof.
  induction 1 as [|kv pairs Hs _ IH]; [reflexivity|].
  cbn [Election.additional_loop].
  now rewrite (@additional_step_skip tweet_id txt kv l Hs).
Qed.

Lemma additional_loop_no_ids tweet_id txt pairs :
  forall l l',
    no_ids l ->
    Election.additional_loop tweet_id txt pairs l = Ok l' ->
    l' = l /\ Forall (skips tweet_id txt) pairs.
Proof.
  induction pairs as [|kv pairs IH]; intros l l' Hn H.
  - cbn in H. inversion H. now split.
  - cbn [Election.additional_loop] in H.
    apply bind_ok in H as (l1 & H1 & H2).
    destruct (Election.fuzzy_target_match tweet_id txt (fst kv))
      as [[ms|]|e|] eqn:F.
    + rewrite (@additional_step_resolved tweet_id txt kv l ms Hn F) in H1.
      discriminate.
    + rewrite (@additional_step_skip tweet_id txt kv l F) in H1.
      inversion H1; subst. destruct (IH l1 l' Hn H2) as [-> Hs].
      split; [reflexivity|]. now constructor.
    + rewrite (@additional_step_raises tweet_id txt kv l e F) in H1.
      discriminate.
    + unfold Election.additional_step in H1. destruct kv as [tgt snt].
      cbn [fst] in F. rewrite F in H1. discriminate.
Qed.

Lemma additional_loop_stops tweet_id txt before kv after l r :
  Forall (skips tweet_id txt) before ->
  Election.additional_step tweet_id txt kv l = Raise r ->
  Election.additional_loop tweet_id txt (before ++ kv :: after) l = Raise r.
Proof.
  intros Hb Hk. induction Hb as [|x before Hx _ IH].
  - cbn [app Election.additional_loop]. now rewrite Hk.
  - cbn [app Election.additional_loop].
    now rewrite (@additional_step_skip tweet_id txt x l Hx).
Qed.

(** C10, as amended: with [include_additional] on, no entities, and
    [additional_items] a dictionary, [parse_tweet] never returns a Target.
    It fails as soon as an item is not skipped: at [max] of the empty id
    list when the item is resolved, with the error of the fuzzy match when
    it is not.  When every item is skipped it returns the empty list. *)
Theorem parse_tweet_no_entities
  (include_dnr : bool) (tweet_text : str) (anno_items : list (str * pyval))
  (pairs : list (str * pyval)) (tweet_id : str) :
  let result :=
    Election.parse_tweet include_dnr true
      (Election.mkTweet tweet_text [])
      (Election.mkAnno anno_items (Election.AsDict pairs)) tweet_id in
  (forall ts, result = Ok ts ->
              ts = [] /\ Forall (skips tweet_id tweet_text) pairs)
  /\ (Forall (skips tweet_id tweet_text) pairs -> result = Ok [])
  /\ (forall before kv after ms,
         pairs = before ++ kv :: after ->
         Forall (skips tweet_id tweet_text) before ->
         Election.fuzzy_target_match tweet_id tweet_text (fst kv)
         = Ok (Some ms) ->
         result = Raise (ValueError $"max() arg is an empty sequence"))
  /\ (forall before kv after e,
         pairs = before ++ kv :: after ->
         Forall (skips tweet_id tweet_text) before ->
         Election.fuzzy_target_match tweet_id tweet_text (fst kv) = Raise e ->
         result = Raise e).
Proof.
  cbv zeta. unfold Election.parse_tweet.
  cbn [Election.content Election.entities Election.entity_loop bind
       Election.additional_items].
  set (l0 := Election.mkLocals [] [] false).
  assert (Hn : no_ids l0) by reflexivity.
  repeat split.
  - apply bind_ok in H as (l' & H1 & H2).
    apply (@additional_loop_no_ids tweet_id tweet_text pairs l0 l' Hn)
      in H1 as [-> _].
    now inversion H2.
  - apply bind_ok in H as (l' & H1 & H2).
    now apply (@additional_loop_no_ids tweet_id tweet_text pairs l0 l' Hn)
      in H1 as [_ Hs].
  - intros Hs.
    now rewrite (@additional_loop_skips tweet_id tweet_text pairs l0 Hs).
  - intros before kv after ms -> Hb F.
    now rewrite (@additional_loop_stops tweet_id tweet_text before kv after
                   l0 _ Hb
                   (@additional_step_resolved tweet_id tweet_text kv l0 ms
                      Hn F)).
  - intros before kv after e -> Hb F.
    now rewrite (@additional_loop_stops tweet_id tweet_text before kv after
                   l0 _ Hb
                   (@additional_step_raises tweet_id tweet_text kv l0 e F)).
Qed.

Lemma parse_tweet_no_entities_witness :
  Election.parse_tweet false true
    (Election.mkTweet $"I hate the new tax plan" [])
    (Election.mkAnno [] (Election.AsDict [($"tax", PStr $"negative")])) $"1"
  = Raise (ValueError $"max() arg is an empty sequence")
  /\ Election.parse_tweet false true
       (Election.mkTweet $"no such word" [])
       (Election.mkAnno [] (Election.AsDict [($"tax", PStr $"negative")]))
       $"65855178264686592"
     = Ok [].
Proof.
  split.
  - refine (proj1 (proj2 (proj2 (@parse_tweet_no_entities false
              $"I hate the new tax plan" [] [($"tax", PStr $"negative")] $"1")))
              [] ($"tax", PStr $"negative") [] [(15, 18)] eq_refl
              (Forall_nil _) eq_refl).
  - refine (proj1 (proj2 (@parse_tweet_no_entities false $"no such word" []
              [($"tax", PStr $"negative")] $"65855178264686592")) _).
    constructor; [reflexivity|constructor].
Defined.

Lemma parse_tweet_no_entities_counterexample :
  let tweet := Election.mkTweet $"hello world" [] in
  let anno :=
    Election.mkAnno [] (Election.AsDict [($"brexit", PStr $"negative")]) in
  Election.entities tweet = []
  /\ Election.additional_items anno
     = Election.AsDict [($"brexit", PStr $"negative")]
  /\ Election.parse_tweet false true tweet anno $"81211671026352128" = Ok [].
Proof. repeat split. Qed.

(** ** [semeval]: polarity labels *)

Lemma get_in {V} (d : list (str * V)) (key : str) (v : V) :
  get d key = Ok v -> In (key, v) d.
Proof.
  induction d as [|[k w] d IH]; cbn [get]; [discriminate|].
  destruct (str_eqb k key) eqn:E.
  - intros H. inversion H; subst. apply str_eqb_eq in E. subst. now left.
  - intros H. right. now apply IH.
Qed.

Lemma get_missing {V} (d : list (str * V)) (key : str) :
  ~ In key (map fst d) -> get d key = Raise (KeyError key).
Proof.
  induction d as [|[k w] d IH]; cbn [get map fst In]; [reflexivity|].
  intros H. rewrite str_eqb_neq by tauto. apply IH. tauto.
Qed.

Lemma extract_from_mapped (terms : list Element) (sentence_id : str) :
  forall index data,
    extract_from index terms sentence_id = Ok data ->
    Forall2 mapped terms data.
Proof.
  induction terms as [|term rest IH]; intros index data H.
  - cbn in H. inversion H. constructor.
  - cbn [extract_from] in H.
    apply bind_ok in H as (p & Hp & H).
    apply bind_ok in H as (z & Hz & H).
    apply bind_ok in H as (tm & _ & H).
    apply bind_ok in H as (fr & _ & H).
    apply bind_ok in H as (to & _ & H).
    apply bind_ok in H as (more & Hm & H).
    inversion H; subst. constructor; [|eapply IH; eauto].
    exists p. split; [exact Hp|]. cbn [a_sentiment]. now apply get_in.
Qed.

Lemma extract_from_unknown (before after : list Element) (term : Element)
  (sentence_id p : str) :
  forall index data,
    extract_from index before sentence_id = Ok data ->
    polarity_of term = Ok p -> unknown_polarity p ->
    extract_from index (before ++ term :: after) sentence_id
    = Raise (KeyError p).
Proof.
  induction before as [|b before IH]; intros index data H Hp Hu.
  - cbn [app extract_from]. unfold polarity_of in Hp. rewrite Hp.
    cbn [bind]. now rewrite (get_missing sentiment_mapper p Hu).
  - cbn [app extract_from] in *.
    destruct (get (attrib_of b) $"polarity") as [q| |]; cbn [bind] in *;
      try discriminate.
    destruct (get sentiment_mapper q) as [z| |]; cbn [bind] in *;
      try discriminate.
    destruct (get (attrib_of b) $"term") as [tm| |]; cbn [bind] in *;
      try discriminate.
    destruct (get (attrib_of b) $"from") as [fr| |]; cbn [bind] in *;
      try discriminate.
    destruct (get (attrib_of b) $"to") as [to| |]; cbn [bind] in *;
      try discriminate.
    destruct (extract_from (S index) before sentence_id) as [more| |] eqn:E;
      cbn [bind] in H; try discriminate.
    now rewrite (IH (S index) more E Hp Hu).
Qed.

Lemma mapped_table (terms : list Element) (data : list aspect_dict) :
  Forall2 mapped terms data ->
  Forall (fun a => exists p, In (p, a_sentiment a) sentiment_mapper) data.
Proof.
  induction 1 as [|term d ? ? (p & _ & Hin) _ IH]; constructor; eauto.
Qed.

Lemma add_aspects_table (aspects : list aspect_dict) :
  forall c c',
    add_aspects c aspects = Ok c' ->
    Forall table_sentiment c ->
    Forall (fun a => exists p, In (p, a_sentiment a) sentiment_mapper) aspects ->
    Forall table_sentiment c'.
Proof.
  induction aspects as [|a rest IH]; intros c c' H Hc Ha.
  - cbn in H. now inversion H; subst.
  - cbn [add_aspects] in H. inversion Ha as [|? ? (p & Hp) Hr]; subst.
    apply bind_ok in H as (t & Ht & H).
    apply bind_ok in H as (c1 & H1 & H).
    apply (IH c1 c' H); [|exact Hr].
    unfold add in H1. destruct (has_id c _); [discriminate|].
    inversion H1; subst. apply Forall_app. split; [exact Hc|].
    constructor; [|constructor].
    unfold target_of_aspect in Ht. destruct (a_text a); [|discriminate].
    inversion Ht; subst. exists p, (a_sentiment a). now split.
Qed.

Lemma scan_sentence_table (children : list Element) (sentence_id : str) :
  forall index st st',
    scan_sentence index children sentence_id st = Ok st' ->
    (forall data, fst st = Some data ->
       Forall (fun a => exists p, In (p, a_sentiment a) sentiment_mapper) data) ->
    forall data, fst st' = Some data ->
      Forall (fun a => exists p, In (p, a_sentiment a) sentiment_mapper) data.
Proof.
  induction children as [|child rest IH]; intros index st st' H Hst.
  - cbn in H. now inversion H; subst.
  - cbn [scan_sentence] in H. destruct st as [a ti].
    destruct (str_eqb (tag_of child) $"text").
    + apply (IH _ _ _ H). exact Hst.
    + destruct (str_eqb (tag_of child) $"aspectTerms").
      * apply bind_ok in H as (terms & Ht & H).
        apply (IH _ _ _ H). cbn [fst]. intros data E. inversion E; subst.
        apply extract_from_mapped in Ht.
        now apply mapped_table in Ht.
      * apply (IH _ _ _ H). exact Hst.
Qed.

Lemma semeval_sentence_table (file_path : str) (sentence : Element) c c' :
  semeval_sentence file_path sentence c = Ok c' ->
  Forall table_sentiment c -> Forall table_sentiment c'.
Proof.
  unfold semeval_sentence. intros H Hc.
  apply bind_ok in H as (sid & _ & H).
  apply bind_ok in H as ([a ti] & Hs & H).
  pose proof (@scan_sentence_table _ _ _ _ _ Hs) as T. cbn [fst] in T.
  destruct a as [data|]; [|now inversion H; subst].
  destruct ti as [text_index|]; [|discriminate].
  destruct (nth_error _ _) as [text_elem|]; [|discriminate].
  assert (G : Forall (fun a => exists p, In (p, a_sentiment a) sentiment_mapper)
                     data) by (apply T; [discriminate|reflexivity]).
  eapply add_aspects_table; [exact H|exact Hc|].
  unfold add_text. apply Forall_map. cbn [a_sentiment].
  exact G.
Qed.

Lemma semeval_sentences_table (file_path : str) (sentences : list Element) :
  forall c c',
    semeval_sentences file_path sentences c = Ok c' ->
    Forall table_sentiment c -> Forall table_sentiment c'.
Proof.
  induction sentences as [|s rest IH]; intros c c' H Hc.
  - cbn in H. now inversion H; subst.
  - cbn [semeval_sentences] in H. apply bind_ok in H as (c1 & H1 & H).
    apply (IH _ _ H). eapply semeval_sentence_table; eauto.
Qed.

(** C7: the polarity of an aspect term is mapped by the table conflict -2,
    negative -1, neutral 0, positive 1; a polarity outside the table raises
    the lookup error for that string, and every Target that [semeval]
    returns carries a sentiment of the table. *)
Theorem semeval_polarity :
  get sentiment_mapper $"conflict" = Ok (-2)%Z
  /\ get sentiment_mapper $"negative" = Ok (-1)%Z
  /\ get sentiment_mapper $"neutral" = Ok 0%Z
  /\ get sentiment_mapper $"positive" = Ok 1%Z
  /\ (forall p, unknown_polarity p ->
        get sentiment_mapper p = Raise (KeyError p))
  /\ (forall aspect_terms sentence_id data,
        extract_aspect_terms aspect_terms sentence_id = Ok data ->
        Forall2 mapped (children_of aspect_terms) data)
  /\ (forall tag attrib txt before term after sentence_id data p,
        extract_from 0 before sentence_id = Ok data ->
        polarity_of term = Ok p -> unknown_polarity p ->
        extract_aspect_terms (Elem tag attrib txt (before ++ term :: after))
                             sentence_id
        = Raise (KeyError p))
  /\ (forall file_path tree c,
        semeval file_path tree = Ok c -> Forall table_sentiment c).
Proof.
  repeat split; try reflexivity.
  - intros p Hu. now apply get_missing.
  - intros aspect_terms sentence_id data H.
    unfold extract_aspect_terms in H. now apply extract_from_mapped in H.
  - intros tag attrib txt before term after sentence_id data p H Hp Hu.
    unfold extract_aspect_terms. cbn [children_of].
    now apply extract_from_unknown with (data := data).
  - intros file_path tree c H. unfold semeval in H.
    destruct (negb _); [discriminate|].
    eapply semeval_sentences_table; [exact H|constructor].
Qed.

Lemma semeval_polarity_witness :
  get sentiment_mapper $"mixed" = Raise (KeyError $"mixed")
  /\ extract_aspect_terms
       (Elem $"aspectTerms" [] None
          ([term_elem $"food" $"positive" $"4" $"8"]
           ++ term_elem $"service" $"mixed" $"20" $"27" :: []))
       $"813"
     = Raise (KeyError $"mixed").
Proof.
  assert (U : unknown_polarity $"mixed").
  { unfold unknown_polarity. cbn. intros [H|[H|[H|[H|[]]]]]; discriminate. }
  split.
  - exact (proj1 (proj2 (proj2 (proj2 (proj2 semeval_polarity)))) $"mixed" U).
  - refine (proj1 (proj2 (proj2 (proj2 (proj2 (proj2 (proj2
              semeval_polarity))))))
              $"aspectTerms" [] None [term_elem $"food" $"positive" $"4" $"8"]
              (term_elem $"service" $"mixed" $"20" $"27") [] $"813" _ $"mixed"
              eq_refl eq_refl U).
Defined.

Example semeval_conflict :
  extract_aspect_terms
    (Elem $"aspectTerms" [] None [term_elem $"menu" $"conflict" $"4" $"8"])
    $"32"
  = Ok [mkAspect $"320" $"menu" (-2) [(PStr $"4", PStr $"8")] None].
Proof. reflexivity. Qed.

(** ** Tokeniser wrappers *)

Lemma split_from_join (s : str) :
  forall cur, join (split_from cur s) = rev cur ++ filter nonspace s.
Proof.
  unfold join, nonspace.
  induction s as [|c r IH]; intros cur.
  - destruct cur; cbn; [reflexivity|]. now rewrite !app_nil_r.
  - cbn [split_from filter]. destruct (isspace c); cbn [negb].
    + destruct cur as [|x cur]; [apply IH|].
      cbn [concat]. now rewrite IH.
    + rewrite IH. cbn [rev]. now rewrite <- app_assoc.
Qed.

Lemma split_from_tokens (s : str) :
  forall cur, forallb nonspace cur = true ->
              Forall token (split_from cur s).
Proof.
  induction s as [|c r IH]; intros cur Hc.
  - destruct cur as [|x cur]; constructor; [|constructor].
    split.
    + intros E. apply (f_equal (@length ascii)) in E.
      rewrite length_rev in E. discriminate.
    + rewrite forallb_forall in *. intros y Hy. apply Hc. now apply in_rev.
  - cbn [split_from]. destruct (isspace c) eqn:E.
    + destruct cur as [|x cur]; [now apply IH|].
      constructor; [|now apply IH]. split.
      * intros N. apply (f_equal (@length ascii)) in N.
        rewrite length_rev in N. discriminate.
      * rewrite forallb_forall in *. intros y Hy. apply Hc. now apply in_rev.
    + apply IH. cbn [forallb]. unfold nonspace at 1. now rewrite E.
Qed.

(** C8, as amended: every wrapper raises, for an argument that is not a
    string, a [ValueError] whose message names the type of the argument, and
    returns no tokens (the external tokeniser is not called); for a string,
    [whitespace] returns the sequence of its whitespace-free tokens in text
    order, and the other wrappers return what the tokeniser they wrap
    returns. *)
Theorem tokenisers_require_str
  (tokenizeRawTweetText stanford_tools_tokenise moses_tokeniser
     : str -> outcome (list str)) :
  (forall text,
      isinstance_str text = false ->
      whitespace text = Raise (not_str_error text)
      /\ ark_twokenize tokenizeRawTweetText text = Raise (not_str_error text)
      /\ stanford stanford_tools_tokenise text = Raise (not_str_error text)
      /\ moses moses_tokeniser text = Raise (not_str_error text))
  /\ (forall s,
         whitespace (PStr s) = Ok (split s)
         /\ Forall token (split s)
         /\ join (split s) = filter nonspace s
         /\ ark_twokenize tokenizeRawTweetText (PStr s)
            = tokenizeRawTweetText s
         /\ stanford stanford_tools_tokenise (PStr s)
            = stanford_tools_tokenise s
         /\ moses moses_tokeniser (PStr s) = moses_tokeniser s).
Proof.
  split.
  - intros text H. destruct text; try discriminate; repeat split.
  - intros s. repeat split.
    + now apply split_from_tokens.
    + unfold split. now rewrite split_from_join.
Qed.

Lemma tokenisers_require_str_witness :
  whitespace (PInt 3)
  = Raise (ValueError $"The paramter must be of type str not <class 'int'>")
  /\ ark_twokenize (fun s => Ok (split s)) PNone
     = Raise (ValueError $"The paramter must be of type str not <class 'NoneType'>").
Proof.
  split.
  - exact (proj1 (proj1 (tokenisers_require_str (fun s => Ok (split s))
                           (fun s => Ok (split s)) (fun s => Ok (split s)))
                    (PInt 3) eq_refl)).
  - exact (proj1 (proj2 (proj1 (tokenisers_require_str
                                  (fun s => Ok (split s))
                                  (fun s => Ok (split s))
                                  (fun s => Ok (split s)))
                           PNone eq_refl))).
Defined.

Lemma tokenisers_require_str_counterexample :
  isinstance_str (PInt 3) = false
  /\ whitespace (PInt 3)
     = Raise (ValueError $"The paramter must be of type str not <class 'int'>")
  /\ is_type_error (whitespace (PInt 3)) = false.
Proof. repeat split. Qed.

Example whitespace_tokens :
  whitespace (PStr $"  I like   kippers ") = Ok [$"I"; $"like"; $"kippers"].
Proof. reflexivity. Qed.

(** ** [election]: record ids from file names *)

Lemma digit_not_in_json (c : ascii) :
  is_digit c = true -> mem c $".json" = false.
Proof.
  destruct c as [[] [] [] [] [] [] [] []]; try reflexivity; discriminate.
Qed.

Lemma dropwhile_all (p : ascii -> bool) (t rest : str) :
  forallb p t = true -> dropwhile p (t ++ rest) = dropwhile p rest.
Proof.
  induction t as [|c t IH]; [reflexivity|].
  cbn [forallb app dropwhile]. intros H.
  apply andb_true_iff in H as [Hc Ht]. rewrite Hc. now apply IH.
Qed.

Lemma dropwhile_stops (p : ascii -> bool) (c : ascii) (rest : str) :
  p c = false -> dropwhile p (c :: rest) = c :: rest.
Proof. cbn [dropwhile]. now intros ->. Qed.

(** The file names the corpus is expected to hold: the prefix digit 5, a
    decimal id that does not begin with 5, and the extension. *)
Lemma tweet_id_of_intended (id : str) :
  forallb is_digit id = true ->
  hd "0"%char id <> "5"%char ->
  Election.tweet_id_of ("5"%char :: id ++ $".json") = id.
Proof.
  intros Hd Hh. unfold Election.tweet_id_of, rstrip_chars, lstrip_chars.
  change ("5"%char :: id ++ $".json") with (("5"%char :: id) ++ $".json").
  rewrite rev_app_distr, dropwhile_all by reflexivity.
  assert (E : dropwhile (fun c => mem c $".json") (rev ("5"%char :: id))
              = rev ("5"%char :: id)).
  { assert (D : forallb is_digit (rev ("5"%char :: id)) = true).
    { rewrite forallb_forall in *. intros c Hc. apply in_rev in Hc.
      destruct Hc as [<-|Hc]; [reflexivity|now apply Hd]. }
    destruct (rev ("5"%char :: id)) as [|c r]; [reflexivity|].
    cbn [forallb] in D. apply andb_true_iff in D as [Dc _].
    apply dropwhile_stops. now apply digit_not_in_json. }
  rewrite E, rev_involutive. cbn [dropwhile].
  change (mem "5"%char $"5") with true. cbv iota.
  destruct id as [|c r]; [reflexivity|].
  cbn [hd] in Hh. apply dropwhile_stops.
  unfold mem. cbn [existsb list_ascii_of_string].
  apply Ascii.eqb_neq in Hh. now rewrite Hh.
Qed.

(** C9: the key that [get_file_data] derives from a file name.  [rstrip] and
    [lstrip] remove every trailing character of the set [.json] and every
    leading [5]: a record id that begins with 5 loses more than the prefix
    digit, and its data is stored under a key that differs from the id. *)
Theorem tweet_id_of_strips_sets :
  Election.tweet_id_of $"581211671026352128.json" = $"81211671026352128"
  /\ Election.tweet_id_of $"55123.json" = $"123"
  /\ Election.tweet_id_of $"55123.json" <> $"5123"
  /\ get (Election.get_file_data [($"55123.json", PInt 7)] []) $"5123"
     = Raise (KeyError $"5123")
  /\ get (Election.get_file_data [($"55123.json", PInt 7)] []) $"123"
     = Ok (PInt 7).
Proof. repeat split. vm_compute. discriminate. Qed.

(** * Further properties of the parsers *)

(** ** [dong]: what a returned collection holds *)






(** ** [dong]: records that are refused *)

Lemma dong_loop_reaches (n : nat) (body : list str) :
  records record_ok n body ->
  forall (t g s : str) (rest : list str) k sent coll,
    length coll = k -> counted coll ->
    exists c,
      length c = n
      /\ dong_loop (3 * k) (body ++ t :: g :: s :: rest) (sent, coll)
         = (coll1 <- dong_record (coll ++ c) t g s ;;
            dong_loop (3 * S (k + n)) rest (mkSent None None, coll1)).
Proof.
  induction 1 as [|n t0 g0 s0 body Hok _ IH];
    intros t g s rest k sent coll Hk Hc.
  - exists []. split; [reflexivity|].
    rewrite app_nil_r, Nat.add_0_r. cbn [app]. apply dong_loop_record.
  - cbn [app]. rewrite dong_loop_record.
    destruct (@dong_record_ok coll t0 g0 s0 Hok Hc)
      as (z & offsets & _ & _ & Hr).
    rewrite Hr. cbn [bind]. set (T := mkTarget _ _ _ _ _ _) in *.
    destruct (IH t g s rest (S k) (mkSent None None) (coll ++ [T]))
      as (c & Hl & E).
    { rewrite length_app; simpl; lia. }
    { now apply counted_add. }
    exists (T :: c). split; [simpl; now rewrite Hl|].
    rewrite <- app_assoc in E. cbn [app] in E.
    replace (3 * S (k + S n)) with (3 * S (S k + n)) by lia. exact E.
Qed.

Lemma dong_record_bad_value (coll : TargetCollection) (t g s : str) (z : Z) :
  py_int (strip s) = Some z -> ~ In z sentiment_range ->
  dong_record coll t g s = Raise (range_error z).
Proof.
  intros Hz Hr. unfold dong_record, dong_line.
  cbn -[existsb sentiment_range py_int strip dong_offsets add str_of_nat
        str_of_Z].
  rewrite Hz.
  destruct (existsb (Z.eqb z) sentiment_range) eqn:R; cbn [negb bind];
    [|reflexivity].
  apply existsb_exists in R as (x & Hx & E). apply Z.eqb_eq in E. now subst.
Qed.

Lemma dong_record_not_int (coll : TargetCollection) (t g s : str) :
  py_int (strip s) = None ->
  dong_record coll t g s = Raise (int_error (strip s)).
Proof.
  intros Hz. unfold dong_record, dong_line.
  cbn -[existsb sentiment_range py_int strip dong_offsets add str_of_nat
        str_of_Z].
  now rewrite Hz.
Qed.

(** A sentiment line that holds an integer other than -1, 0, 1 makes [dong]
    raise the [ValueError] that names this integer, whatever the target of
    that record and whatever follows it in the file, once the records
    before it are well formed. *)
Theorem dong_rejects_sentiment_value
  (fs : filesystem) (file_path : str) (n : nat) (body rest : list str)
  (t g s : str) (z : Z) :
  fs file_path = Some (body ++ t :: g :: s :: rest) ->
  records record_ok n body ->
  py_int (strip s) = Some z -> ~ In z sentiment_range ->
  dong fs file_path = Raise (range_error z).
Proof.
  intros Hfs Hb Hz Hr. unfold dong. rewrite Hfs. unfold dong_lines.
  change 0 with (3 * 0).
  destruct (@dong_loop_reaches n body Hb t g s rest 0 (mkSent None None) []
              eq_refl eq_refl) as (c & _ & E).
  rewrite E. now rewrite (@dong_record_bad_value ([] ++ c) t g s z Hz Hr).
Qed.

Lemma dong_rejects_sentiment_value_witness :
  dong (fun _ => Some ([$"Good film"; $"film"; $"1"]
                       ++ $"Bad film" :: $"*" :: $" 2 " :: [$"dangling"]))
       $"data.txt"
  = Raise (range_error 2).
Proof.
  refine (@dong_rejects_sentiment_value _ $"data.txt" 1
            [$"Good film"; $"film"; $"1"] [$"dangling"]
            $"Bad film" $"*" $" 2 " 2 eq_refl _ eq_refl _).
  - constructor; [reflexivity|constructor].
  - cbn. intros [H|[H|[H|[]]]]; discriminate.
Defined.

(** A sentiment line that [int] does not accept makes [dong] raise the
    [ValueError] of [int], whose message ends in the [repr] of the stripped
    line, once the records before it are well formed. *)
Theorem dong_rejects_sentiment_text
  (fs : filesystem) (file_path : str) (n : nat) (body rest : list str)
  (t g s : str) :
  fs file_path = Some (body ++ t :: g :: s :: rest) ->
  records record_ok n body ->
  py_int (strip s) = None ->
  dong fs file_path = Raise (int_error (strip s)).
Proof.
  intros Hfs Hb Hz. unfold dong. rewrite Hfs. unfold dong_lines.
  change 0 with (3 * 0).
  destruct (@dong_loop_reaches n body Hb t g s rest 0 (mkSent None None) []
              eq_refl eq_refl) as (c & _ & E).
  rewrite E. now rewrite (@dong_record_not_int ([] ++ c) t g s Hz).
Qed.

Lemma dong_rejects_sentiment_text_witness :
  dong (fun _ => Some ([] ++ $"Good film" :: $"film" :: $" positive " :: []))
       $"data.txt"
  = Raise (ValueError $"invalid literal for int() with base 10: 'positive'").
Proof.
  exact (@dong_rejects_sentiment_text _ $"data.txt" 0 [] []
           $"Good film" $"film" $" positive " eq_refl (records_nil _)
           eq_refl).
Defined.

(** ** Matches lie inside the lower-cased text that is searched *)








(** ** [election]: what fuzzy resolution returns *)




(** ** [semeval]: the dictionaries of the aspect terms *)

Lemma extract_from_fields (terms : list Element) (sentence_id : str) :
  forall index data,
    extract_from index terms sentence_id = Ok data ->
    length data = length terms
    /\ forall i term,
         nth_error terms i = Some term ->
         exists d, nth_error data i = Some d
                   /\ aspect_of sentence_id (index + i) term d.
Proof.
  induction terms as [|term0 rest IH]; intros index data H.
  - cbn in H. inversion H. split; [reflexivity|].
    intros [|i] term Hn; discriminate.
  - cbn [extract_from] in H.
    apply bind_ok in H as (p & Hp & H).
    apply bind_ok in H as (z & Hz & H).
    apply bind_ok in H as (tm & Htm & H).
    apply bind_ok in H as (fr & Hfr & H).
    apply bind_ok in H as (to & Hto & H).
    apply bind_ok in H as (more & Hm & H).
    inversion H; subst. destruct (IH _ _ Hm) as [Hl Hi].
    split; [simpl; now rewrite Hl|].
    intros [|i] term Hn.
    + inversion Hn; subst. eexists. split; [reflexivity|].
      unfold aspect_of. cbn [a_target_id a_target a_spans a_text].
      rewrite Nat.add_0_r. repeat split; auto. now exists fr, to.
    + destruct (Hi i term Hn) as (d & Hd & Ha). exists d.
      split; [exact Hd|]. now replace (index + S i) with (S index + i) by lia.
Qed.

(** Whenever [extract_aspect_terms] returns, it returns one dictionary per
    aspectTerm child, in order: the [i]-th has the id [sentence_id] followed
    by [str(i)], the [term] attribute as target, the [from] and [to]
    attribute strings as its one span, and no text yet. *)
Theorem extract_aspect_terms_fields
  (aspect_terms : Element) (sentence_id : str) (data : list aspect_dict) :
  extract_aspect_terms aspect_terms sentence_id = Ok data ->
  length data = length (children_of aspect_terms)
  /\ forall i term,
       nth_error (children_of aspect_terms) i = Some term ->
       exists d, nth_error data i = Some d /\ aspect_of sentence_id i term d.
Proof.
  unfold extract_aspect_terms. intros H.
  apply extract_from_fields in H as [Hl Hi]. split; [exact Hl|exact Hi].
Qed.

Lemma extract_aspect_terms_fields_witness :
  length [mkAspect $"320" $"menu" (-2) [(PStr $"4", PStr $"8")] None]
  = length (children_of
              (Elem $"aspectTerms" [] None
                    [term_elem $"menu" $"conflict" $"4" $"8"])).
Proof.
  exact (proj1 (@extract_aspect_terms_fields
                  (Elem $"aspectTerms" [] None
                        [term_elem $"menu" $"conflict" $"4" $"8"])
                  $"32" _ eq_refl)).
Defined.

(** ** [semeval]: sentences without aspect terms, sentences without text *)

Lemma semeval_sentences_app (file_path : str) (a b : list Element) :
  forall c,
    semeval_sentences file_path (a ++ b) c
    = (c' <- semeval_sentences file_path a c ;;
       semeval_sentences file_path b c').
Proof.
  induction a as [|s a IH]; intros c; [reflexivity|].
  cbn [app semeval_sentences].
  destruct (semeval_sentence file_path s c); cbn [bind]; auto.
Qed.

Lemma scan_sentence_no_terms (children : list Element) (sentence_id : str) :
  forall index st,
    Forall (fun c => has_tag $"aspectTerms" c = false) children ->
    exists ti, scan_sentence index children sentence_id st = Ok (fst st, ti).
Proof.
  induction children as [|child rest IH]; intros index [a ti] H.
  - exists ti. reflexivity.
  - inversion H as [|? ? Hc Hr]; subst. unfold has_tag in Hc.
    cbn [scan_sentence]. rewrite Hc.
    destruct (str_eqb (tag_of child) $"text").
    + destruct (IH (S index) (a, Some index) Hr) as [ti' E]. now exists ti'.
    + destruct (IH (S index) (a, ti) Hr) as [ti' E]. now exists ti'.
Qed.

Lemma semeval_sentence_no_terms (file_path : str) (sentence : Element)
  (sentence_id : str) (c : TargetCollection) :
  get (attrib_of sentence) $"id" = Ok sentence_id ->
  Forall (fun e => has_tag $"aspectTerms" e = false) (children_of sentence) ->
  semeval_sentence file_path sentence c = Ok c.
Proof.
  intros Hid Hc. unfold semeval_sentence. rewrite Hid. cbn [bind].
  destruct (@scan_sentence_no_terms (children_of sentence) sentence_id 0
              (None, None) Hc) as [ti E].
  rewrite E. reflexivity.
Qed.

(** A sentence that has an [id] and no [aspectTerms] child contributes
    nothing: the file parses as it does without that sentence. *)
Theorem semeval_skips_sentence
  (file_path : str) (attrib : list (str * str)) (txt : option str)
  (before after : list Element) (sentence : Element) (sentence_id : str) :
  get (attrib_of sentence) $"id" = Ok sentence_id ->
  Forall (fun e => has_tag $"aspectTerms" e = false) (children_of sentence) ->
  semeval file_path (sentences_root attrib txt (before ++ sentence :: after))
  = semeval file_path (sentences_root attrib txt (before ++ after)).
Proof.
  intros Hid Hc. unfold semeval, sentences_root.
  cbn [tag_of children_of]. rewrite str_eqb_refl. cbn [negb].
  rewrite !semeval_sentences_app. apply bind_ext. intros c.
  cbn [semeval_sentences].
  now rewrite (@semeval_sentence_no_terms file_path sentence sentence_id c
                 Hid Hc).
Qed.

Lemma semeval_skips_sentence_witness :
  semeval $"laptops.xml"
    (sentences_root [] None
       ([] ++ Elem $"sentence" [($"id", $"7")] None
                   [Elem $"text" [] (Some $"It works.") []] :: []))
  = semeval $"laptops.xml" (sentences_root [] None ([] ++ [])).
Proof.
  apply (@semeval_skips_sentence $"laptops.xml" [] None [] []
           (Elem $"sentence" [($"id", $"7")] None
                 [Elem $"text" [] (Some $"It works.") []]) $"7" eq_refl).
  constructor; [reflexivity|constructor].
Defined.

Lemma scan_sentence_no_text (children : list Element) (sentence_id : str) :
  forall index a ti,
    Forall (fun c => has_tag $"text" c = false) children ->
    Forall (fun c => has_tag $"aspectTerms" c = true ->
                     is_ok (extract_aspect_terms c sentence_id) = true)
           children ->
    exists a',
      scan_sentence index children sentence_id (a, ti) = Ok (a', ti)
      /\ (a <> None \/ Exists (fun c => has_tag $"aspectTerms" c = true)
                              children ->
          a' <> None).
Proof.
  induction children as [|child rest IH]; intros index a ti Ht He.
  - exists a. split; [reflexivity|]. intros [H|H]; [exact H|inversion H].
  - inversion Ht as [|? ? Hc Hr]; subst. inversion He as [|? ? Hx Hy]; subst.
    unfold has_tag in Hc, Hx. cbn [scan_sentence]. rewrite Hc.
    destruct (str_eqb (tag_of child) $"aspectTerms") eqn:E.
    + destruct (extract_aspect_terms child sentence_id) as [terms| |];
        try (specialize (Hx eq_refl); discriminate).
      cbn [bind].
      destruct (IH (S index) (Some terms) ti Hr Hy) as (a' & Hs & Hn).
      exists a'. split; [exact Hs|]. intros _. apply Hn. left. discriminate.
    + destruct (IH (S index) a ti Hr Hy) as (a' & Hs & Hn).
      exists a'. split; [exact Hs|]. intros [H|H]; apply Hn; [now left|].
      right. inversion H as [? ? Hh|? ? Hh]; subst; [|exact Hh].
      unfold has_tag in Hh. congruence.
Qed.

(** A sentence with an [aspectTerms] child and no [text] child makes
    [semeval] raise the [ValueError] that names the file and the sentence
    id, once the sentences before it are parsed and its aspect terms are
    read. *)
Theorem semeval_needs_text
  (file_path : str) (attrib : list (str * str)) (txt : option str)
  (before after : list Element) (sentence : Element)
  (sentence_id : str) (c : TargetCollection) :
  semeval_sentences file_path before [] = Ok c ->
  get (attrib_of sentence) $"id" = Ok sentence_id ->
  Forall (fun e => has_tag $"text" e = false) (children_of sentence) ->
  Exists (fun e => has_tag $"aspectTerms" e = true) (children_of sentence) ->
  Forall (fun e => has_tag $"aspectTerms" e = true ->
                   is_ok (extract_aspect_terms e sentence_id) = true)
         (children_of sentence) ->
  semeval file_path (sentences_root attrib txt (before ++ sentence :: after))
  = Raise (text_error file_path sentence_id).
Proof.
  intros Hb Hid Ht Hx He. unfold semeval, sentences_root.
  cbn [tag_of children_of]. rewrite str_eqb_refl. cbn [negb].
  rewrite semeval_sentences_app, Hb. cbn [bind semeval_sentences].
  unfold semeval_sentence. rewrite Hid. cbn [bind].
  destruct (@scan_sentence_no_text (children_of sentence) sentence_id 0
              None None Ht He) as (a' & Hs & Hn).
  rewrite Hs. cbn [bind]. destruct a' as [data|]; [reflexivity|].
  exfalso. apply Hn; [now right|reflexivity].
Qed.

Lemma semeval_needs_text_witness :
  semeval $"laptops.xml"
    (sentences_root [] None
       ([] ++ Elem $"sentence" [($"id", $"7")] None
                   [Elem $"aspectTerms" [] None
                         [term_elem $"screen" $"positive" $"4" $"10"]]
           :: []))
  = Raise (text_error $"laptops.xml" $"7").
Proof.
  apply (@semeval_needs_text $"laptops.xml" [] None [] []
           (Elem $"sentence" [($"id", $"7")] None
                 [Elem $"aspectTerms" [] None
                       [term_elem $"screen" $"positive" $"4" $"10"]])
           $"7" [] eq_refl eq_refl).
  - constructor; [reflexivity|constructor].
  - constructor. reflexivity.
  - constructor; [reflexivity|constructor].
Defined.

(** ** [election]: the dictionary of a folder *)

Lemma get_set_same {V} (d : list (str * V)) (key : str) (v : V) :
  get (set d key v) key = Ok v.
Proof.
  induction d as [|[k w] d IH]; cbn [set get].
  - now rewrite str_eqb_refl.
  - destruct (str_eqb k key) eqn:E; cbn [get]; now rewrite E.
Qed.

Lemma get_set_other {V} (d : list (str * V)) (key key' : str) (v : V) :
  key' <> key -> get (set d key v) key' = get d key'.
Proof.
  intros N. induction d as [|[k w] d IH]; cbn [set get].
  - rewrite str_eqb_neq; [reflexivity|congruence].
  - destruct (str_eqb k key) eqn:E; cbn [get].
    + apply str_eqb_eq in E. subst.
      rewrite str_eqb_neq; [reflexivity|congruence].
    + now rewrite IH.
Qed.

Lemma get_file_data_app {J} (a b : list (str * J)) :
  forall data,
    Election.get_file_data (a ++ b) data
    = Election.get_file_data b (Election.get_file_data a data).
Proof.
  induction a as [|[name json] a IH]; intros data; [reflexivity|].
  cbn [app Election.get_file_data]. apply IH.
Qed.

Lemma get_file_data_other {J} (folder : list (str * J)) (key : str) :
  forall data,
    ~ In key (map file_key folder) ->
    get (Election.get_file_data folder data) key = get data key.
Proof.
  induction folder as [|[name json] folder IH]; intros data N;
    [reflexivity|].
  cbn [Election.get_file_data]. cbn [map In] in N. rewrite IH by tauto.
  apply get_set_other. intros E. apply N. left.
  unfold file_key. cbn [fst]. now symmetry.
Qed.

(** The data of a file is found under the key derived from its name,
    provided no file listed after it yields the same key; of two files with
    the same key the one listed later is kept. *)
Theorem get_file_data_lookup {J}
  (before after : list (str * J)) (file_name : str) (json : J) :
  ~ In (Election.tweet_id_of file_name) (map file_key after) ->
  get (Election.get_file_data (before ++ (file_name, json) :: after) [])
      (Election.tweet_id_of file_name)
  = Ok json.
Proof.
  intros N. rewrite get_file_data_app. cbn [Election.get_file_data].
  rewrite get_file_data_other by exact N. apply get_set_same.
Qed.

Lemma get_file_data_lookup_witness :
  get (Election.get_file_data
         ([($"55123.json", PInt 1)] ++ ($"5123.json", PInt 2) :: []) [])
      (Election.tweet_id_of $"5123.json")
  = Ok (PInt 2).
Proof.
  apply (@get_file_data_lookup pyval [($"55123.json", PInt 1)] []
           $"5123.json" (PInt 2)).
  intros [].
Defined.

(** ** [election]: the Targets of the detected entities *)

Lemma entity_step_cases include_dnr anno tweet_id txt e l :
  Election.entity_step include_dnr anno tweet_id txt e l
  = (offsets <- Election.get_offsets tweet_id e txt (Election.e_entity e) ;;
     sentiment <- get (Election.items anno) (str_of_Z (Election.e_id e)) ;;
     let t := mkTarget (PStr txt) (Election.e_entity e)
                       (map Election.int_pair offsets) sentiment
                       (numbered tweet_id (Election.e_id e))
                       (Some tweet_id) in
     Ok (Election.mkLocals
           (Election.target_instances l
            ++ (if applies t || include_dnr then [t] else []))
           (Election.target_ids l ++ [Election.e_id e]) true)).
Proof.
  unfold Election.entity_step.
  destruct (Election.get_offsets _ _ _ _) as [offsets| |]; cbn [bind];
    try reflexivity.
  destruct (get _ _) as [label| |]; cbn [bind]; try reflexivity.
  unfold applies. cbn [sentiment].
  destruct (Election.pyval_eqb_str label $"doesnotapply"),
    include_dnr; cbn [negb andb orb]; try reflexivity;
    now rewrite app_nil_r.
Qed.

Lemma entity_loop_filters anno tweet_id txt ents :
  forall l l',
    Election.target_ids l = Election.target_ids l' ->
    Election.target_instances l
    = filter applies (Election.target_instances l') ->
    match Election.entity_loop true anno tweet_id txt ents l' with
    | Ok r' =>
        exists r,
          Election.entity_loop false anno tweet_id txt ents l = Ok r
          /\ Election.target_instances r
             = filter applies (Election.target_instances r')
    | Raise e =>
        Election.entity_loop false anno tweet_id txt ents l = Raise e
    | Beyond =>
        Election.entity_loop false anno tweet_id txt ents l = Beyond
    end.
Proof.
  induction ents as [|e rest IH]; intros l l' Hi Ht.
  - cbn. now exists l.
  - cbn [Election.entity_loop]. rewrite !entity_step_cases.
    destruct (Election.get_offsets _ _ _ _) as [offsets| |]; cbn [bind];
      try reflexivity.
    destruct (get _ _) as [sentiment| |]; cbn [bind]; try reflexivity.
    cbv zeta. apply IH; cbn [Election.target_ids Election.target_instances].
    + now rewrite Hi.
    + rewrite filter_app, Ht, orb_true_r, orb_false_r. reflexivity.
Qed.

(** With [include_additional] off, parsing a tweet with [include_dnr] off
    raises what it raises with [include_dnr] on, and otherwise returns the
    same Targets in the same order less those labelled [doesnotapply]. *)
Theorem parse_tweet_drops_doesnotapply
  (tweet_data : Election.tweet) (anno_data : Election.annotation)
  (tweet_id : str) :
  Election.parse_tweet false false tweet_data anno_data tweet_id
  = (ts <- Election.parse_tweet true false tweet_data anno_data tweet_id ;;
     Ok (filter applies ts)).
Proof.
  unfold Election.parse_tweet.
  pose proof (@entity_loop_filters anno_data tweet_id
                (Election.content tweet_data) (Election.entities tweet_data)
                (Election.mkLocals [] [] false)
                (Election.mkLocals [] [] false) eq_refl eq_refl) as H.
  destruct (Election.entity_loop true _ _ _ _ _) as [r'| |]; cbn [bind].
  - destruct H as (r & -> & E). cbn [bind]. now rewrite E.
  - now rewrite H.
  - now rewrite H.
Qed.

Lemma entity_loop_all anno tweet_id txt ents :
  forall l l',
    Election.entity_loop true anno tweet_id txt ents l = Ok l' ->
    exists ts,
      Election.target_instances l' = Election.target_instances l ++ ts
      /\ Forall2 (entity_target anno tweet_id txt) ents ts.
Proof.
  induction ents as [|e rest IH]; intros l l' H.
  - cbn in H. inversion H; subst. exists []. rewrite app_nil_r.
    split; [reflexivity|constructor].
  - cbn [Election.entity_loop] in H. rewrite entity_step_cases in H.
    apply bind_ok in H as (l1 & H1 & H2).
    apply bind_ok in H1 as (offsets & Ho & H1).
    apply bind_ok in H1 as (label & Hs & H1).
    cbv zeta in H1. rewrite orb_true_r in H1. inversion H1; subst.
    apply IH in H2 as (ts & E & F). cbn [Election.target_instances] in E.
    eexists. split; [rewrite E, <- app_assoc; reflexivity|].
    constructor; [|exact F]. unfold entity_target.
    cbn [target_id target text sentence_id sentiment]. now repeat split.
Qed.

(** With [include_dnr] on and [include_additional] off, a tweet that parses
    yields one Target per detected entity, in order, with the id
    [tweet_id#entity_id], the entity string as target, the tweet content as
    text, the tweet id as sentence id and the annotated label of the entity
    as sentiment. *)
Theorem parse_tweet_keeps_entities
  (tweet_data : Election.tweet) (anno_data : Election.annotation)
  (tweet_id : str) (ts : list Target) :
  Election.parse_tweet true false tweet_data anno_data tweet_id = Ok ts ->
  Forall2 (entity_target anno_data tweet_id (Election.content tweet_data))
          (Election.entities tweet_data) ts.
Proof.
  unfold Election.parse_tweet. intros H.
  apply bind_ok in H as (l & Hl & H). inversion H; subst.
  apply entity_loop_all in Hl as (ts & E & F).
  cbn [Election.target_instances app] in E. now rewrite E.
Qed.

Lemma parse_tweet_keeps_entities_witness :
  Forall2 (entity_target
             (Election.mkAnno [($"3", PStr $"positive")] Election.NotDict)
             $"75270720671973376" $"I like Kippers")
          [Election.mkEntity $"kippers" 3 8] [kippers_target].
Proof.
  apply (@parse_tweet_keeps_entities
           (Election.mkTweet $"I like Kippers" [Election.mkEntity $"kippers" 3 8])
           (Election.mkAnno [($"3", PStr $"positive")] Election.NotDict)
           $"75270720671973376" [kippers_target]).
  reflexivity.
Defined.

(** ** [election]: the errors of one tweet *)







Example parse_tweet_offset_error :
  Election.parse_tweet false false
    (Election.mkTweet $"I like Kippers" [Election.mkEntity $"kippers" 3 3])
    (Election.mkAnno [($"3", PStr $"positive")] Election.NotDict) $"1"
  = Raise (Election.offset_error $"1" 3 $"I like Kippers" $"kippers").
Proof. reflexivity. Qed.

Example parse_tweet_key_error :
  Election.parse_tweet false false
    (Election.mkTweet $"I like Kippers" [Election.mkEntity $"kippers" 3 8])
    (Election.mkAnno [($"4", PStr $"positive")] Election.NotDict) $"1"
  = Raise (KeyError $"3").
Proof. reflexivity. Qed.

(** ** [election]: the ids of one tweet are distinct *)













(** ** [election]: the Targets of a split *)

Lemma get_targets_app include_dnr include_additional tweets annos
  (a b : list str) :
  Election.get_targets include_dnr include_additional (a ++ b) tweets annos
  = (ta <- Election.get_targets include_dnr include_additional a
                                tweets annos ;;
     tb <- Election.get_targets include_dnr include_additional b
                                tweets annos ;;
     Ok (ta ++ tb)).
Proof.
  induction a as [|id a IH].
  - cbn [app Election.get_targets bind].
    destruct (Election.get_targets _ _ b _ _); reflexivity.
  - cbn [app Election.get_targets].
    destruct (get tweets (strip id)); cbn [bind]; try reflexivity.
    destruct (get annos (strip id)); cbn [bind]; try reflexivity.
    destruct (Election.parse_tweet _ _ _ _ _); cbn [bind]; try reflexivity.
    rewrite IH.
    destruct (Election.get_targets _ _ a _ _); cbn [bind]; try reflexivity.
    destruct (Election.get_targets _ _ b _ _); cbn [bind]; try reflexivity.
    now rewrite app_assoc.
Qed.

(** The collection of a split is the Targets of its tweets, tweet after
    tweet in the order of the id file: what [get_data] returns for the ids
    [a] followed by the ids [b] is what the tweets of [a] yield followed by
    what the tweets of [b] yield. *)
Theorem get_data_in_file_order
  (include_dnr include_additional : bool) (a b : list str)
  (tweets : list (str * Election.tweet))
  (annos : list (str * Election.annotation)) (c : TargetCollection) :
  Election.get_data include_dnr include_additional (a ++ b) tweets annos
  = Ok c ->
  exists ta tb,
    Election.get_targets include_dnr include_additional a tweets annos = Ok ta
    /\ Election.get_targets include_dnr include_additional b tweets annos
       = Ok tb
    /\ c = ta ++ tb.
Proof.
  unfold Election.get_data. rewrite get_targets_app. intros H.
  apply bind_ok in H as (ts & H & Hc).
  apply bind_ok in H as (ta & Ha & H).
  apply bind_ok in H as (tb & Hb & H). inversion H; subst.
  apply collect_app in Hc. exists ta, tb. now repeat split.
Qed.

Lemma get_data_in_file_order_witness :
  Election.get_data false false ([$"2"] ++ [$"1"]) two_tweets two_annotations
  = Ok [second_tweet_target; first_tweet_target]
  /\ exists ta tb,
       Election.get_targets false false [$"2"] two_tweets two_annotations
       = Ok ta
       /\ Election.get_targets false false [$"1"] two_tweets two_annotations
          = Ok tb
       /\ [second_tweet_target; first_tweet_target] = ta ++ tb.
Proof.
  split; [reflexivity|].
  apply (@get_data_in_file_order false false [$"2"] [$"1"]).
  reflexivity.
Defined.

Lemma get_present {V} (d : list (str * V)) (key : str) :
  In key (map fst d) -> exists v, get d key = Ok v.
Proof.
  induction d as [|[k v] d IH]; cbn [map fst In get]; [intros []|].
  destruct (str_eqb k key) eqn:E; [now exists v|].
  intros [H|H]; [|now apply IH]. subst. now rewrite str_eqb_refl in E.
Qed.

(** An id of the id file for which there is no tweet file stops the split
    with the [KeyError] for that id, stripped, once the ids before it are
    parsed; so does an id with a tweet file and no annotation file. *)
Theorem get_data_missing_id
  (include_dnr include_additional : bool) (before after : list str)
  (tweet_id : str) (tweets : list (str * Election.tweet))
  (annos : list (str * Election.annotation)) (ts : list Target) :
  Election.get_targets include_dnr include_additional before tweets annos
  = Ok ts ->
  ~ In (strip tweet_id) (map fst tweets)
  \/ (In (strip tweet_id) (map fst tweets)
      /\ ~ In (strip tweet_id) (map fst annos)) ->
  Election.get_data include_dnr include_additional
                    (before ++ tweet_id :: after) tweets annos
  = Raise (KeyError (strip tweet_id)).
Proof.
  intros Hb Hm. unfold Election.get_data.
  rewrite get_targets_app, Hb. cbn [bind Election.get_targets].
  destruct Hm as [Ht|[Ht Ha]].
  - now rewrite (get_missing tweets (strip tweet_id) Ht).
  - destruct (get_present tweets (strip tweet_id) Ht) as [tw E].
    rewrite E. cbn [bind].
    now rewrite (get_missing annos (strip tweet_id) Ha).
Qed.

Lemma get_data_missing_id_witness :
  Election.get_data false false ([] ++ $" 4711 " :: [$"75270720671973376"])
    (Election.get_file_data (Election.tweets kippers_folder) [])
    (Election.get_file_data (Election.annotations kippers_folder) [])
  = Raise (KeyError $"4711").
Proof.
  apply (@get_data_missing_id false false [] [$"75270720671973376"]
           $" 4711 " _ _ [] eq_refl).
  left. vm_compute. intros [H|[]]. discriminate.
Defined.

(** ** [election]: what [include_additional] adds *)





(** ** [whitespace]: cutting a text at a whitespace character *)

Lemma split_from_cut (b : str) (sp : ascii) :
  isspace sp = true ->
  forall (a cur : str),
    split_from cur (a ++ sp :: b) = split_from cur a ++ split_from [] b.
Proof.
  intros Hs. induction a as [|c a IH]; intros cur.
  - cbn [app split_from]. rewrite Hs. now destruct cur.
  - cbn [app split_from]. destruct (isspace c).
    + destruct cur; [apply IH|]. cbn [app]. now rewrite IH.
    + apply IH.
Qed.

(** The tokens of a text cut at a whitespace character are the tokens of
    the part before it followed by the tokens of the part after it; in
    particular whitespace at either end of a text adds no token. *)
Theorem whitespace_cut (a b : str) (sp : ascii) :
  isspace sp = true ->
  whitespace (PStr (a ++ sp :: b)) = Ok (split a ++ split b)
  /\ whitespace (PStr (sp :: b)) = whitespace (PStr b)
  /\ whitespace (PStr (a ++ [sp])) = whitespace (PStr a).
Proof.
  intros Hs. unfold whitespace, split. repeat split.
  - now rewrite split_from_cut.
  - change (sp :: b) with ([] ++ sp :: b). now rewrite split_from_cut.
  - rewrite split_from_cut by exact Hs. cbn [split_from].
    now rewrite app_nil_r.
Qed.

Lemma whitespace_cut_witness :
  whitespace (PStr ($"I like" ++ " "%char :: $"kippers"))
  = Ok (split $"I like" ++ split $"kippers").
Proof.
  exact (proj1 (@whitespace_cut $"I like" $"kippers" " "%char eq_refl)).
Defined.

(** ** [dong]: whitespace around a line *)

Lemma dropwhile_head (p : ascii -> bool) (s : str) :
  match dropwhile p s with
  | [] => True
  | c :: _ => p c = false
  end.
Proof.
  induction s as [|c r IH]; cbn [dropwhile]; [exact I|].
  destruct (p c) eqn:E; [exact IH|exact E].
Qed.

Lemma dropwhile_fix (p : ascii -> bool) (s : str) :
  match s with [] => True | c :: _ => p c = false end ->
  dropwhile p s = s.
Proof. destruct s as [|c r]; cbn [dropwhile]; [reflexivity|now intros ->]. Qed.

Lemma dropwhile_suffix (p : ascii -> bool) (s : str) :
  exists dropped, s = dropped ++ dropwhile p s.
Proof.
  induction s as [|c r [d IH]]; [now exists []|].
  cbn [dropwhile]. destruct (p c).
  - exists (c :: d). cbn [app]. now f_equal.
  - now exists [].
Qed.

Lemma strip_idempotent (s : str) : strip (strip s) = strip s.
Proof.
  unfold strip.
  set (u := dropwhile isspace s).
  set (v := dropwhile isspace (rev u)).
  assert (Hv : dropwhile isspace v = v)
    by (apply dropwhile_fix; apply dropwhile_head).
  assert (Hr : dropwhile isspace (rev v) = rev v).
  { apply dropwhile_fix.
    destruct (dropwhile_suffix isspace (rev u)) as [d E]. fold v in E.
    apply (f_equal (@rev ascii)) in E.
    rewrite rev_involutive, rev_app_distr in E.
    pose proof (dropwhile_head isspace s) as Hu. fold u in Hu.
    rewrite E in Hu. destruct (rev v); [exact I|exact Hu]. }
  now rewrite Hr, rev_involutive, Hv.
Qed.

Lemma dong_line_strip (index : nat) (line : str) st :
  dong_line index (strip line) st = dong_line index line st.
Proof. unfold dong_line. now rewrite strip_idempotent. Qed.

Lemma dong_loop_strip (lines : list str) :
  forall index st,
    dong_loop index (map strip lines) st = dong_loop index lines st.
Proof.
  induction lines as [|line rest IH]; intros index st; [reflexivity|].
  cbn [map dong_loop]. rewrite dong_line_strip.
  apply bind_ext. intros st'. apply IH.
Qed.

(** Whitespace at the start or the end of a line (the line terminator
    included) does not count: [dong] gives the same result, Targets and
    errors alike, on a file and on the file with every line stripped. *)
Theorem dong_ignores_outer_whitespace
  (fs : filesystem) (file_path : str) :
  dong (fun path => option_map (map strip) (fs path)) file_path
  = dong fs file_path.
Proof.
  unfold dong. destruct (fs file_path) as [lines|]; [|reflexivity].
  cbn [option_map]. apply dong_loop_strip.
Qed.
